(** * ArvanCloud libdns adapter: a shallow embedding and its properties

    The development follows the Go sources of the adapter:
    - the client   : the transport client ([do], [newRequest], [getRecords],
                     [createRecord], [deleteRecord], [updateRecord]), the
                     record locator ([findExistingRecord]) and the TXT quote
                     helpers ([wrapContent], [unwrapContent]);
    - the models   : the provider record types and the record codec
                     ([toLibDNSRecord], [arvancloudRecord]);
    - the provider : the facade ([GetRecords], [AppendRecords],
                     [SetRecords], [DeleteRecords]).

    Go strings are byte strings ([string]); Go [int], [int64] and
    [time.Duration] are [Z] (64-bit, wrap-around written out where the code
    multiplies); a [float64] is the rational number it stands for, with the
    rounding of each operation written out; the body of a request is what
    [json.Marshal] makes of the payload; an [any] is an inductive over the
    dynamic types that reach
    the adapter; a panic is an outcome of its own; the requests sent to the
    provider are kept in a trace.  The functions of the libraries the
    adapter calls ([net/netip], [encoding/json], [net/http], [libdns]) are
    either written out ([strings], the name helpers of [libdns]) or taken
    as the fields of a class, of which nothing is assumed. *)

From Stdlib Require Import Bool Ascii String List ZArith NArith QArith Lia.
From Stdlib Require Import Qround Qabs Qpower Lqa Morphisms SpecFloat.
Import ListNotations.

Local Open Scope list_scope.
Local Open Scope string_scope.

Set Implicit Arguments.
Set Warnings "-register-all".

(* ===================================================================== *)
(** ** Byte strings: the functions of Go's [strings] package in use *)
(* ===================================================================== *)

Module GoStrings.

(** The double quote, byte 34. *)
Definition dquote : ascii := ascii_of_nat 34.
(** The backslash, byte 92. *)
Definition backslash : ascii := ascii_of_nat 92.

Definition str1 (c : ascii) : string := String c EmptyString.

(** [strings.HasPrefix(s, prefix)]. *)
Definition HasPrefix (s prefix : string) : bool := String.prefix prefix s.

(** [strings.HasSuffix(s, suffix)]: some tail of [s] is [suffix]. *)
Fixpoint HasSuffix (s suffix : string) : bool :=
  (s =? suffix) ||
  match s with
  | EmptyString => false
  | String _ s' => HasSuffix s' suffix
  end.

(** [strings.TrimPrefix(s, prefix)]: [s[len(prefix):]] when it has the prefix. *)
Definition TrimPrefix (s prefix : string) : string :=
  if HasPrefix s prefix
  then substring (String.length prefix) (String.length s - String.length prefix) s
  else s.

(** [strings.TrimSuffix(s, suffix)]: [s[:len(s)-len(suffix)]] when it has the suffix. *)
Definition TrimSuffix (s suffix : string) : string :=
  if HasSuffix s suffix
  then substring 0 (String.length s - String.length suffix) s
  else s.

(** [strings.Contains(s, substr)]: [substr] starts at some position of [s]. *)
Fixpoint Contains (s substr : string) : bool :=
  HasPrefix s substr ||
  match s with
  | EmptyString => false
  | String _ s' => Contains s' substr
  end.

(** Lower-casing of one byte, ASCII letters only. *)
Definition toLower (c : ascii) : ascii :=
  let n := N_of_ascii c in
  if ((65 <=? n) && (n <=? 90))%N then ascii_of_N (n + 32) else c.

(** [strings.EqualFold(s, t)] on ASCII text: equality up to the case of the
    letters A-Z.  Bytes above 127 are compared as they are (Go folds whole
    Unicode code points there; DNS names and type tags are ASCII). *)
Fixpoint EqualFold (s t : string) : bool :=
  match s, t with
  | EmptyString, EmptyString => true
  | String a s', String b t' => Ascii.eqb (toLower a) (toLower b) && EqualFold s' t'
  | _, _ => false
  end.

(** [strings.Trim(s, ".")]: every leading and trailing dot removed. *)
Fixpoint trimLeftDots (s : string) : string :=
  match s with
  | String c s' => if Ascii.eqb c "."%char then trimLeftDots s' else s
  | EmptyString => EmptyString
  end.

Fixpoint trimRightDots (s : string) : string :=
  match s with
  | EmptyString => EmptyString
  | String c s' =>
      match trimRightDots s' with
      | EmptyString => if Ascii.eqb c "."%char then EmptyString else str1 c
      | t => String c t
      end
  end.

Definition TrimDots (s : string) : string := trimRightDots (trimLeftDots s).

(** Decimal text of an integer, as [%d] prints it. *)
Definition digitChar (n : N) : ascii := ascii_of_N (48 + n).

Fixpoint decimalDigits (fuel : nat) (n : N) (acc : string) : string :=
  match fuel with
  | O => acc
  | S fuel' =>
      let acc' := String (digitChar (n mod 10)) acc in
      if (n <? 10)%N then acc' else decimalDigits fuel' (n / 10) acc'
  end.

Definition formatN (n : N) : string := decimalDigits (S (N.to_nat (N.log2 n))) n "".

Definition formatInt (z : Z) : string :=
  if (z <? 0)%Z then "-" ++ formatN (Z.to_N (- z)) else formatN (Z.to_N z).

(** Two lower-case hexadecimal digits of a byte, as in a [\x..] escape. *)
Definition hexDigit (n : N) : ascii :=
  if (n <? 10)%N then ascii_of_N (48 + n) else ascii_of_N (87 + n).

Definition hex2 (c : ascii) : string :=
  let n := N_of_ascii c in
  String (hexDigit (n / 16)) (str1 (hexDigit (n mod 16))).

(** What [strconv.Quote] writes for one byte of ASCII text: the quote and
    the backslash are escaped with a backslash, printable bytes stand for
    themselves, the control bytes have their letter or [\x..] escapes.
    Bytes above 127 are kept as they are: they stand for themselves in the
    printable code points of valid UTF-8, which is what text records hold;
    the properties below that depend on the escapes are stated for ASCII. *)
Definition quoteByte (c : ascii) : string :=
  let n := N_of_ascii c in
  if Ascii.eqb c dquote then String backslash (str1 dquote)
  else if Ascii.eqb c backslash then String backslash (str1 backslash)
  else if ((32 <=? n) && (n <=? 126))%N then str1 c
  else if (n =? 7)%N then String backslash "a"
  else if (n =? 8)%N then String backslash "b"
  else if (n =? 12)%N then String backslash "f"
  else if (n =? 10)%N then String backslash "n"
  else if (n =? 13)%N then String backslash "r"
  else if (n =? 9)%N then String backslash "t"
  else if (n =? 11)%N then String backslash "v"
  else if (n <? 128)%N then String backslash ("x" ++ hex2 c)
  else str1 c.

Fixpoint quoteBody (s : string) : string :=
  match s with
  | EmptyString => EmptyString
  | String c s' => quoteByte c ++ quoteBody s'
  end.

(** [fmt.Sprintf("%q", s)], that is [strconv.Quote(s)]. *)
Definition Quote (s : string) : string :=
  String dquote (quoteBody s ++ str1 dquote).

(** A byte that [Quote] leaves as it is in ASCII text. *)
Definition plainByte (c : ascii) : bool :=
  let n := N_of_ascii c in
  ((32 <=? n) && (n <=? 126))%N && negb (Ascii.eqb c dquote) && negb (Ascii.eqb c backslash).

Fixpoint plainText (s : string) : bool :=
  match s with
  | EmptyString => true
  | String c s' => plainByte c && plainText s'
  end.

End GoStrings.
Import GoStrings.

(* ===================================================================== *)
(** ** TXT quote helpers (the client) *)
(* ===================================================================== *)

Definition unwrapContent (content : string) : string :=
  if HasPrefix content (str1 dquote) && HasSuffix content (str1 dquote)
  then TrimPrefix (TrimSuffix content (str1 dquote)) (str1 dquote)
  else content.

Definition wrapContent (content : string) : string :=
  if negb (HasPrefix content (str1 dquote)) && negb (HasSuffix content (str1 dquote))
  then Quote content
  else content.

(* ===================================================================== *)
(** ** Numbers *)
(* ===================================================================== *)

(** A Go [int64] result: the value modulo 2^64, read as signed. *)
Definition wrap64 (z : Z) : Z := ((z + 2 ^ 63) mod 2 ^ 64 - 2 ^ 63)%Z.

Definition int64 (z : Z) : Prop := (- 2 ^ 63 <= z < 2 ^ 63)%Z.

(** [time.Second], in nanoseconds. *)
Definition Second : Z := 1000000000%Z.

(** *** [float64]

    [time.Duration.Seconds] computes in [float64].  A [float64] is taken
    here as the rational number it stands for, and an operation on
    [float64]s as the exact operation on rationals followed by rounding to
    the nearest [float64], the one with the even significand when two are
    equally near.  Every number rounded below is zero or between 10^-9 and
    10^10 in absolute value, far inside the range of the normal numbers,
    where a [float64] is a whole number below 2^53 times a power of two;
    the exponent is therefore left unbounded. *)

(** The whole number nearest to [y], the even one of two equally near. *)
Definition nearestEven (y : Q) : Z :=
  let f := Qfloor y in
  match (y - inject_Z f ?= 1 # 2)%Q with
  | Lt => f
  | Gt => (f + 1)%Z
  | Eq => if Z.even f then f else (f + 1)%Z
  end.

(** The exponent [e] of the last place of the significand of a positive
    [a]: 2^52 <= a / 2^e < 2^53. *)
Definition ulpExponent (a : Q) : Z :=
  let e := (Z.log2 (Qnum a) - Z.log2 (Zpos (Qden a)) - 52)%Z in
  if Qle_bool (inject_Z (2 ^ 52) * 2 ^ e)%Q a then e else (e - 1)%Z.

(** The [float64] nearest to the rational [x]. *)
Definition float64 (x : Q) : Q :=
  let x := Qred x in
  if (Qnum x =? 0)%Z then 0%Q
  else
    let a := Qabs x in
    let e := ulpExponent a in
    (inject_Z (Z.sgn (Qnum x) * nearestEven (a / 2 ^ e)) * 2 ^ e)%Q.

(** The conversion [int(f)] of a [float64] in the range of [int]: the
    fraction is dropped. *)
Definition truncate (x : Q) : Z := Z.quot (Qnum x) (Zpos (Qden x)).

(** [time.Duration.Seconds]:
    [sec := d / Second; nsec := d % Second;
     return float64(sec) + float64(nsec)/1e9]. *)
Definition Seconds (d : Z) : Q :=
  let sec := Z.quot d Second in
  let nsec := Z.rem d Second in
  float64 (float64 (inject_Z sec) + float64 (float64 (inject_Z nsec) / 1000000000))%Q.

(** [int(d.Seconds())] for a [time.Duration] [d]. *)
Definition durationSeconds (d : Z) : Z := truncate (Seconds d).

(** The same computation in the Standard Library's specification of IEEE
    754 arithmetic, at the parameters of binary64, to compare with. *)
Module IEEE754.

Definition ofZ (z : Z) : spec_float := binary_normalize 53 1024 z 0 false.

Definition secondsOf (d : Z) : spec_float :=
  SFadd 53 1024 (ofZ (Z.quot d Second))
        (SFdiv 53 1024 (ofZ (Z.rem d Second)) (ofZ 1000000000)).

Definition valueOf (f : spec_float) : Q :=
  match f with
  | S754_finite s m e => (inject_Z (if s then Z.neg m else Z.pos m) * 2 ^ e)%Q
  | _ => 0%Q
  end.

(** Durations at which the two are compared: whole seconds, the ends of
    the range, and durations a nanosecond or two short of a whole second,
    from 2^22 to 2^25 seconds. *)
Definition samples : list Z :=
  [0; 1; 999999999; 1500000000; -1500000000; 120000000000;
   4194304999999999; 8388608999999999; 16777216999999998; 16777216999999999;
   -16777216999999999; 33554432999999997; 123456789123456789;
   9223372036854775807; -9223372036854775808]%Z.

End IEEE754.

(* ===================================================================== *)
(** ** The generic record model (package [libdns]) and [net/netip] *)
(* ===================================================================== *)

(** A [netip.Addr]: the zero value, an IPv4 address (32 bits) or an IPv6
    address (128 bits, with its zone). *)
Inductive Addr : Type :=
| AddrZero
| Addr4 (v : N)
| Addr6 (v : N) (zone : string).

(** [Addr.Is6]. *)
Definition Is6 (a : Addr) : bool :=
  match a with Addr6 _ _ => true | _ => false end.

(** [libdns.RR]. *)
Record RR : Type := mkRR {
  RR_Name : string;
  RR_TTL : Z;
  RR_Type : string;
  RR_Data : string
}.

(** The implementations of [libdns.Record] that the adapter switches on,
    and [libdns.RR] itself.  ([ProviderData] is left out: the adapter neither
    reads nor sets it.) *)
Inductive libRecord : Type :=
| Address (Name : string) (TTL : Z) (IP : Addr)
| CAA (Name : string) (TTL : Z) (Flags : Z) (Tag Value : string)
| CNAME (Name : string) (TTL : Z) (Target : string)
| MX (Name : string) (TTL : Z) (Preference : Z) (Target : string)
| NS (Name : string) (TTL : Z) (Target : string)
| SRV (Service Transport Name : string) (TTL : Z) (Priority Weight Port : Z) (Target : string)
| TXT (Name : string) (TTL : Z) (Text : string)
| Generic (rr : RR).

(** [libdns.RelativeName(fqdn, zone)]: trailing dots are ignored, the zone
    is cut off the end, and the apex is "@". *)
Definition RelativeName (fqdn zone : string) : string :=
  let rel := TrimSuffix (TrimSuffix (TrimSuffix fqdn ".") (TrimSuffix zone ".")) "." in
  if (rel =? "") && negb (fqdn =? "") && negb (zone =? "") then "@" else rel.

(** [libdns.AbsoluteName(name, zone)]: the apex ("" or "@") is the zone;
    a name that ends with a dot is absolute already and is returned as it
    is; any other name is prepended to the zone with a dot between. *)
Definition AbsoluteName (name zone : string) : string :=
  if zone =? "" then TrimDots name
  else if (name =? "") || (name =? "@") then zone
  else if HasSuffix name "." then name
  else name ++ "." ++ zone.

(* ===================================================================== *)
(** ** Provider records (the models) *)
(* ===================================================================== *)

Record IPFilter : Type := mkIPFilter {
  Count : string;
  GeoFilter : string;
  Order : string
}.

(** [ARecordValue]: one entry of the value of an A or AAAA record. *)
Record ARecordValue : Type := mkARecordValue {
  IP : string;
  Port : Z;
  Weight : Z;
  Country : string
}.

Record TXTRecordValue : Type := mkTXTRecordValue { Text : string }.
Record MXRecordValue : Type := mkMXRecordValue { MX_Host : string; MX_Priority : Z }.
Record CNAMERecordValue : Type := mkCNAMERecordValue {
  CNAME_Host : string; CNAME_HostHeader : string; CNAME_Port : Z }.
Record SRVRecordValue : Type := mkSRVRecordValue {
  SRV_Target : string; SRV_Port : Z; SRV_Priority : Z; SRV_Weight : Z }.
Record CAARecordValue : Type := mkCAARecordValue { CAA_Value : string; CAA_Tag : string }.
Record NSRecordValue : Type := mkNSRecordValue { NS_Host : string }.

(** The dynamic values an [any] of the adapter can hold.

    [encoding/json] decodes into an [any] one of: [nil], [bool], [float64]
    (here the rational it denotes), [string], [[]any] and [map[string]any]
    (here its entries).  The adapter itself stores the typed value structs
    ([arvancloudRecord]) and a [[]ARecordValue] ([DeleteRecords]). *)
Inductive any : Type :=
| Nil
| JBool (b : bool)
| JNumber (f : Q)
| JString (s : string)
| JArray (l : list any)
| JObject (m : list (string * any))
| VARecord (v : ARecordValue)
| VARecords (l : list ARecordValue)
| VTXT (v : TXTRecordValue)
| VMX (v : MXRecordValue)
| VCNAME (v : CNAMERecordValue)
| VSRV (v : SRVRecordValue)
| VCAA (v : CAARecordValue)
| VNS (v : NSRecordValue).

(** [arDNSRecord]. *)
Record arDNSRecord : Type := mkRecord {
  ID : string;
  Type_ : string;
  Name : string;
  Value : any;
  TTL : Z;
  Cloud : bool;
  IsProtected : bool;
  UpstreamHTTPS : string;
  IPFilterMode : option IPFilter
}.

(** The zero value [arDNSRecord{}]. *)
Definition zeroRecord : arDNSRecord :=
  mkRecord "" "" "" Nil 0 false false "" None.

(** [r] after the assignment [r.Value = v]. *)
Definition setValue (r : arDNSRecord) (v : any) : arDNSRecord :=
  mkRecord r.(ID) r.(Type_) r.(Name) v r.(TTL) r.(Cloud) r.(IsProtected)
           r.(UpstreamHTTPS) r.(IPFilterMode).

(** A value as [encoding/json] leaves it in an [any]. *)
Fixpoint jsonDecoded (v : any) : bool :=
  match v with
  | Nil | JBool _ | JNumber _ | JString _ => true
  | JArray l => forallb jsonDecoded l
  | JObject m => forallb (fun kv => jsonDecoded (snd kv)) m
  | _ => false
  end.

(** [arResponse], the envelope of every response. *)
Record arResponse : Type := mkResponse {
  Data : string;              (* json.RawMessage *)
  Status : bool;
  Errors : list string;
  Message : string
}.

(** [paginatedResponse]. *)
Record paginatedResponse : Type := mkPage {
  Page_Data : list arDNSRecord;
  Links_Next : option string;
  Meta_CurrentPage : Z;
  Meta_LastPage : Z
}.

(** [singleRecordResponse]. *)
Record singleRecordResponse : Type := mkSingle {
  Single_Data : arDNSRecord;
  Single_Message : option string
}.

(* ===================================================================== *)
(** ** Errors, panics and outcomes *)
(* ===================================================================== *)

Inductive error : Type :=
| ErrHTTP (msg : string)                       (* from [http.Client.Do] *)
| ErrRequest (msg : string)                    (* from [http.NewRequestWithContext] *)
| ErrJSON (msg : string)                       (* from [encoding/json] *)
| ErrAPI (status : Z) (body : string)          (* "API error %d: %s" *)
| ErrGotErrors (status : Z) (errors : list string) (* "got errors: HTTP %d: %+v" *)
| ErrInvalidIP (ip : string) (cause : string)  (* "invalid IP address %q: %v" *)
| ErrRRParse (msg : string)                    (* from [libdns.RR.Parse] *)
| ErrParsing (r : libRecord) (cause : error).  (* "parsing Arvancloud DNS record %+v: %v" *)

(** The text of the error [do] makes for a status of 400 or more. *)
Definition apiErrorText (status : Z) (body : string) : string :=
  "API error " ++ formatInt status ++ ": " ++ body.

(** The text of an error made by the transport client. *)
Definition transportErrorText (e : error) : option string :=
  match e with
  | ErrHTTP msg | ErrRequest msg | ErrJSON msg => Some msg
  | ErrAPI status body => Some (apiErrorText status body)
  | _ => None
  end.

(** The run-time panic of a failed type assertion [v.(T)]: the value found. *)
Inductive panic : Type :=
| InterfaceConversion (found : any).

(** How a call ends: a value and a nil error; an error, which every
    function of the adapter returns beside the zero value of its result (a
    nil slice, an empty record); a panic; or, for the page loop of
    [getRecords], which runs on fuel, no end within the fuel. *)
Inductive outcome (A : Type) : Type :=
| Ok (a : A)
| Err (e : error)
| Panicked (p : panic)
| OutOfFuel.

Arguments Ok {A} a.
Arguments Err {A} e.
Arguments Panicked {A} p.
Arguments OutOfFuel {A}.

Definition isOk {A} (o : outcome A) : bool :=
  match o with Ok _ => true | _ => false end.

(* ===================================================================== *)
(** ** What the adapter takes from its libraries and from the network *)
(* ===================================================================== *)

(** The payload handed to [newRequest]: nil, the [*bytes.Reader] that
    [createRecord] makes over the JSON text of a record, or a record
    ([updateRecord]). *)
Inductive payload : Type :=
| NoPayload
| ReaderOver (r : arDNSRecord)
| RecordPayload (r : arDNSRecord).

(** The body of a request, as the peer reads it: empty, the two bytes of
    the empty JSON object, or the JSON text of a record. *)
Inductive body : Type :=
| NoBody
| EmptyObject
| RecordJSON (r : arDNSRecord).

(** [json.Marshal(payload)] in [newRequest], which is not called on a nil
    payload.  A [*bytes.Reader] is a pointer to a struct without an
    exported field and without a marshaller of its own: its JSON text is
    that of the empty object, whatever it reads. *)
Definition marshalPayload (p : payload) : body :=
  match p with
  | NoPayload => NoBody
  | ReaderOver _ => EmptyObject
  | RecordPayload r => RecordJSON r
  end.

(** An HTTP request as [newRequest] builds it (the headers do not depend on
    the record). *)
Record request : Type := mkRequest {
  Method : string;
  URL : string;
  RequestBody : body
}.

Record httpResponse : Type := mkHTTP {
  StatusCode : Z;
  Body : string
}.

(** The library functions whose code is outside the repository.  Each field
    stands for the function named beside it; nothing is assumed of them. *)
Class Lib : Type := {
  (** [netip.ParseAddr]: the address, or the text of the error. *)
  ParseAddr : string -> string + Addr;
  (** [netip.Addr.String]. *)
  AddrString : Addr -> string;
  (** The name [libdns.SRV.RR] composes from service, transport and name. *)
  srvName : string -> string -> string -> string;
  (** [libdns.RR.Parse]. *)
  rrParse : RR -> string + libRecord;
  (** In the fallback of [toLibDNSRecord]: the text decoded as a JSON object
      and its field values, each printed with [%v], joined by spaces, in the
      order the [range] over the map takes in the call at hand (Go does not
      fix it, so two calls may differ on an object of several fields). *)
  fallbackData : string -> string;
  (** [http.NewRequestWithContext], on a method and a URL: its error, if any. *)
  newRequestError : string -> string -> option string;
  (** [json.NewDecoder(body).Decode(&respData)]: the envelope or the error
      text, and what is left unread of the body. *)
  decodeEnvelope : string -> (string + arResponse) * string;
  (** [json.Unmarshal] of the envelope's data into each result shape. *)
  unmarshalPage : string -> string + paginatedResponse;
  unmarshalRecord : string -> string + arDNSRecord;
  unmarshalSingle : string -> string + singleRecordResponse
}.

(** The peer: what [http.Client.Do] returns for a request, given every
    request sent so far (the last one is the request itself). *)
Definition Server : Type := list request -> string + httpResponse.

(** The requests sent so far, oldest first. *)
Definition trace : Type := list request.

(** A computation of the adapter: it may send requests and ends in an outcome. *)
Definition M (A : Type) : Type := trace -> outcome A * trace.

Definition ret {A} (a : A) : M A := fun tr => (Ok a, tr).

Definition fail {A} (e : error) : M A := fun tr => (Err e, tr).

Definition bind {A B} (m : M A) (k : A -> M B) : M B :=
  fun tr =>
    match m tr with
    | (Ok a, tr') => k a tr'
    | (Err e, tr') => (Err e, tr')
    | (Panicked p, tr') => (Panicked p, tr')
    | (OutOfFuel, tr') => (OutOfFuel, tr')
    end.

(** A pure outcome as a computation. *)
Definition lift {A} (o : outcome A) : M A := fun tr => (o, tr).

Notation "x <- m ;; k" := (bind m (fun x => k))
  (at level 61, m at next level, right associativity).

(* ===================================================================== *)
(** ** Record codec (the models) *)
(* ===================================================================== *)

Section Codec.
Context {lib : Lib}.

(** [r.RR()] for each implementation. *)
Definition rrOf (r : libRecord) : RR :=
  match r with
  | Address name ttl ip =>
      mkRR name ttl (if Is6 ip then "AAAA" else "A") (AddrString ip)
  | CAA name ttl flags tag value =>
      mkRR name ttl "CAA" (formatInt flags ++ " " ++ tag ++ " " ++ Quote value)
  | CNAME name ttl target => mkRR name ttl "CNAME" target
  | MX name ttl pref target => mkRR name ttl "MX" (formatInt pref ++ " " ++ target)
  | NS name ttl target => mkRR name ttl "NS" target
  | SRV service transport name ttl prio weight port target =>
      mkRR (srvName service transport name) ttl "SRV"
           (formatInt prio ++ " " ++ formatInt weight ++ " " ++ formatInt port ++ " " ++ target)
  | TXT name ttl text => mkRR name ttl "TXT" text
  | Generic rr => rr
  end.

(** [arDNSRecord.toLibDNSRecord].  Each [r.Value.(T)] is a type assertion in
    its one-result form: it panics unless the value held is a [T]. *)
Definition toLibDNSRecord (r : arDNSRecord) (zone : string) : outcome libRecord :=
  let name := RelativeName r.(Name) zone in
  let ttl := wrap64 (r.(TTL) * Second) in
  if (r.(Type_) =? "A") || (r.(Type_) =? "AAAA") then
    match r.(Value) with
    | VARecord v =>
        match ParseAddr v.(IP) with
        | inl err => Err (ErrInvalidIP v.(IP) err)
        | inr addr => Ok (Address name ttl addr)
        end
    | other => Panicked (InterfaceConversion other)
    end
  else if r.(Type_) =? "CAA" then
    match r.(Value) with
    | VCAA v => Ok (CAA name ttl 0 v.(CAA_Tag) v.(CAA_Value))
    | other => Panicked (InterfaceConversion other)
    end
  else if r.(Type_) =? "CNAME" then
    match r.(Value) with
    | VCNAME v => Ok (CNAME name ttl v.(CNAME_Host))
    | other => Panicked (InterfaceConversion other)
    end
  else if r.(Type_) =? "MX" then
    match r.(Value) with
    | VMX v => Ok (MX name ttl v.(MX_Priority) v.(MX_Host))
    | other => Panicked (InterfaceConversion other)
    end
  else if r.(Type_) =? "NS" then
    match r.(Value) with
    | VNS v => Ok (NS name ttl v.(NS_Host))
    | other => Panicked (InterfaceConversion other)
    end
  else if r.(Type_) =? "SRV" then
    match r.(Value) with
    | VSRV v => Ok (SRV "" "" name ttl v.(SRV_Priority) v.(SRV_Weight) v.(SRV_Port) v.(SRV_Target))
    | other => Panicked (InterfaceConversion other)
    end
  else if r.(Type_) =? "TXT" then
    match r.(Value) with
    | VTXT v => Ok (TXT name ttl (unwrapContent v.(Text)))
    | other => Panicked (InterfaceConversion other)
    end
  else
    match r.(Value) with
    | JString s =>
        match rrParse (mkRR name ttl r.(Type_) (fallbackData s)) with
        | inl err => Err (ErrRRParse err)
        | inr rec => Ok rec
        end
    | other => Panicked (InterfaceConversion other)
    end.

(** [arvancloudRecord]; its error result is always nil.  A variant outside
    the switch keeps the nil [Value]. *)
Definition arvancloudRecord (r : libRecord) : arDNSRecord :=
  let rr := rrOf r in
  let arRec := mkRecord "" rr.(RR_Type) rr.(RR_Name) Nil
                        (durationSeconds rr.(RR_TTL)) false false "" None in
  match r with
  | Address _ _ ip => setValue arRec (VARecord (mkARecordValue (AddrString ip) 0 0 ""))
  | CNAME _ _ target => setValue arRec (VCNAME (mkCNAMERecordValue target "" 0))
  | NS _ _ target => setValue arRec (VNS (mkNSRecordValue target))
  | CAA _ _ _ tag value => setValue arRec (VCAA (mkCAARecordValue value tag))
  | MX _ _ pref target => setValue arRec (VMX (mkMXRecordValue target pref))
  | SRV _ _ _ _ prio weight port target =>
      setValue arRec (VSRV (mkSRVRecordValue target port prio weight))
  | TXT _ _ text => setValue arRec (VTXT (mkTXTRecordValue (wrapContent text)))
  | Generic _ => arRec
  end.

End Codec.

(* ===================================================================== *)
(** ** Record locator (the client) *)
(* ===================================================================== *)

(** The name of a stored record as [findExistingRecord] compares it. *)
Definition storedName (recordName zone : string) : string :=
  let recordName :=
    if negb (Contains recordName zone) && negb (recordName =? "@") then
      if recordName =? "@" then zone else (recordName ++ "." ++ zone)%string
    else recordName in
  TrimSuffix recordName ".".

Definition matches (r : arDNSRecord) (searchName rType zone : string) : bool :=
  EqualFold (storedName r.(Name) zone) searchName && EqualFold r.(Type_) rType.

Fixpoint findFrom (i : nat) (records : list arDNSRecord) (searchName rType zone : string)
  : option (nat * arDNSRecord) :=
  match records with
  | [] => None
  | r :: rest =>
      if matches r searchName rType zone then Some (i, r)
      else findFrom (S i) rest searchName rType zone
  end.

(** [Provider.findExistingRecord].  It returns the pointer [&records[i]]:
    here the index [i] with the record found there; nil is [None]. *)
Definition findExistingRecord (records : list arDNSRecord) (name rType zone : string)
  : option (nat * arDNSRecord) :=
  findFrom 0 records (AbsoluteName name zone) rType zone.

(* ===================================================================== *)
(** ** Transport client *)
(* ===================================================================== *)

Definition apiBaseURL : string := "https://napi.arvancloud.ir/cdn/4.0".

Section Client.
Context {lib : Lib}.
Variable server : Server.

(** [client.newRequest].  [json.Marshal] does not fail on the payloads the
    client hands over, so the one error is the request constructor's. *)
Definition newRequest (method url : string) (p : payload) : M request :=
  match newRequestError method (apiBaseURL ++ url) with
  | Some err => fail (ErrRequest err)
  | None => ret (mkRequest method (apiBaseURL ++ url) (marshalPayload p))
  end.

(** [client.do], for a [result] that points to a value of type [A] which
    [unmarshal] fills (every caller passes such a pointer, never nil).
    The request is sent; the envelope is decoded from the body; only then
    is the status looked at, and the text put in the error is what
    [io.ReadAll] still finds in the body. *)
Definition do {A : Type} (unmarshal : string -> string + A) (req : request) (result : A)
  : M A :=
  fun tr =>
    let tr' := (tr ++ [req])%list in
    match server tr' with
    | inl err => (Err (ErrHTTP err), tr')
    | inr resp =>
        match decodeEnvelope resp.(Body) with
        | (inl err, _) => (Err (ErrJSON err), tr')
        | (inr respData, unread) =>
            if (400 <=? resp.(StatusCode))%Z then
              (Err (ErrAPI resp.(StatusCode) unread), tr')
            else if (0 <? List.length respData.(Errors))%nat then
              (Err (ErrGotErrors resp.(StatusCode) respData.(Errors)), tr')
            else if (0 <? String.length respData.(Data))%nat then
              match unmarshal respData.(Data) with
              | inl err => (Err (ErrJSON err), tr')
              | inr v => (Ok v, tr')
              end
            else (Ok result, tr')
        end
    end.

Definition zeroPage : paginatedResponse := mkPage [] None 0 0.

Definition isNil {A} (o : option A) : bool :=
  match o with None => true | Some _ => false end.

(** [client.getRecords]: the page loop, on fuel. *)
Fixpoint getRecordsFrom (fuel : nat) (zone : string) (page : Z) (records : list arDNSRecord)
  : M (list arDNSRecord) :=
  match fuel with
  | O => lift OutOfFuel
  | S fuel' =>
      let u := "/domains/" ++ zone ++ "/dns-records?page=" ++ formatInt page ++ "&per_page=100" in
      req <- newRequest "GET" u NoPayload ;;
      resp <- do unmarshalPage req zeroPage ;;
      let records := (records ++ resp.(Page_Data))%list in
      if isNil resp.(Links_Next) || (resp.(Meta_LastPage) <=? resp.(Meta_CurrentPage))%Z
      then ret records
      else getRecordsFrom fuel' zone (wrap64 (page + 1)) records
  end.

Definition getRecords (fuel : nat) (zone : string) : M (list arDNSRecord) :=
  getRecordsFrom fuel zone 1 [].

(** [client.createRecord]. *)
Definition createRecord (zone : string) (record : libRecord) : M arDNSRecord :=
  let arRec := arvancloudRecord record in
  let u := "/domains/" ++ zone ++ "/dns-records" in
  req <- newRequest "POST" u (ReaderOver arRec) ;;
  do unmarshalRecord req zeroRecord.

(** [client.deleteRecord]. *)
Definition deleteRecord (zone recordID : string) : M arDNSRecord :=
  let u := "/domains/" ++ zone ++ "/dns-records/" ++ recordID in
  req <- newRequest "DELETE" u NoPayload ;;
  do unmarshalRecord req zeroRecord.

(** [client.updateRecord]. *)
Definition updateRecord (zone recordID : string) (record : arDNSRecord) : M arDNSRecord :=
  let u := "/domains/" ++ zone ++ "/dns-records/" ++ recordID in
  req <- newRequest "PUT" u (RecordPayload record) ;;
  resp <- do unmarshalSingle req (mkSingle zeroRecord None) ;;
  ret resp.(Single_Data).

End Client.

(* ===================================================================== *)
(** ** The IP entries of a stored value ([DeleteRecords]) *)
(* ===================================================================== *)

(** [DeleteRecords] reads the entries of an A or AAAA record with
    [b, _ := json.Marshal(existing.Value)] and
    [_ = json.Unmarshal(b, &currentVals)], both errors dropped.  The two
    calls together, on the value held:

    - [json.Marshal] writes the entries of a map in the order of their keys;
    - [json.Unmarshal] into a [[]ARecordValue] takes a JSON array, one entry
      per element; an element that is an object sets, key by key (the key
      matched to the field's JSON name, any case), the field whose JSON
      value fits it; a value that does not fit (a type error) leaves its
      field alone and decoding goes on, the error being reported at the end
      (and here dropped); [null] leaves its target alone; an element that is
      no object is an entry with every field zero;
    - any other JSON value is a type error and leaves the slice nil;
    - a [[]ARecordValue] ([DeleteRecords] stores one) is read back as it is. *)

Fixpoint insertKey (kv : string * any) (l : list (string * any)) : list (string * any) :=
  match l with
  | [] => [kv]
  | kv' :: rest =>
      if String.leb (fst kv) (fst kv') then kv :: l else kv' :: insertKey kv rest
  end.

Definition sortKeys (m : list (string * any)) : list (string * any) :=
  fold_right insertKey [] m.

(** A JSON number into an [int] field: whole numbers of the [int64] range. *)
Definition asInt (v : any) : option Z :=
  match v with
  | JNumber f =>
      let r := Qred f in
      if (Qden r =? 1)%positive && (- 2 ^ 63 <=? Qnum r)%Z && (Qnum r <? 2 ^ 63)%Z
      then Some (Qnum r) else None
  | _ => None
  end.

Definition asString (v : any) : option string :=
  match v with
  | JString s => Some s
  | _ => None
  end.

Definition storeField (e : ARecordValue) (kv : string * any) : ARecordValue :=
  let (key, val) := kv in
  if EqualFold key "ip" then
    match asString val with
    | Some s => mkARecordValue s e.(Port) e.(Weight) e.(Country)
    | None => e
    end
  else if EqualFold key "port" then
    match asInt val with
    | Some n => mkARecordValue e.(IP) n e.(Weight) e.(Country)
    | None => e
    end
  else if EqualFold key "weight" then
    match asInt val with
    | Some n => mkARecordValue e.(IP) e.(Port) n e.(Country)
    | None => e
    end
  else if EqualFold key "country" then
    match asString val with
    | Some s => mkARecordValue e.(IP) e.(Port) e.(Weight) s
    | None => e
    end
  else e.

Definition zeroARecordValue : ARecordValue := mkARecordValue "" 0 0 "".

Definition decodeEntry (v : any) : ARecordValue :=
  match v with
  | JObject m => fold_left storeField (sortKeys m) zeroARecordValue
  | _ => zeroARecordValue
  end.

Definition decodeARecordValues (v : any) : list ARecordValue :=
  match v with
  | JArray l => map decodeEntry l
  | VARecords l => l
  | _ => []
  end.

(** Whether [json.Unmarshal] reports no error on the value, that is, whether
    the value is an IP-entry list: [null], or an array whose elements are
    [null] or objects in which every key of a field carries a value that
    fits the field (or [null]). *)
Definition fieldFits (kv : string * any) : bool :=
  let (key, val) := kv in
  match val with
  | Nil => true
  | _ =>
      if EqualFold key "ip" || EqualFold key "country" then
        match asString val with Some _ => true | None => false end
      else if EqualFold key "port" || EqualFold key "weight" then
        match asInt val with Some _ => true | None => false end
      else true
  end.

Definition entryFits (v : any) : bool :=
  match v with
  | Nil => true
  | JObject m => forallb fieldFits m
  | _ => false
  end.

Definition decodesCleanly (v : any) : bool :=
  match v with
  | Nil => true
  | JArray l => forallb entryFits l
  | VARecords _ => true
  | _ => false
  end.

(** The loop of [DeleteRecords] over [currentVals]: the entries kept, and
    whether one was dropped. *)
Fixpoint removeIP (data : string) (currentVals newVals : list ARecordValue) (found : bool)
  : list ARecordValue * bool :=
  match currentVals with
  | [] => (newVals, found)
  | v :: rest =>
      if v.(IP) =? data then removeIP data rest newVals true
      else removeIP data rest (newVals ++ [v])%list found
  end.

(** [existingRecords] after an assignment through the pointer [&records[i]]. *)
Fixpoint storeAt (i : nat) (r : arDNSRecord) (records : list arDNSRecord) : list arDNSRecord :=
  match records, i with
  | [], _ => []
  | _ :: rest, O => r :: rest
  | x :: rest, S i' => x :: storeAt i' r rest
  end.

(* ===================================================================== *)
(** ** Provider facade *)
(* ===================================================================== *)

Section Provider.
Context {lib : Lib}.
Variable server : Server.

(** The error of [toLibDNSRecord] wrapped as the facade does after a
    mutation: [fmt.Errorf("parsing Arvancloud DNS record %+v: %v", r, err)]. *)
Definition parsed (r : libRecord) (o : outcome libRecord) : M libRecord :=
  match o with
  | Err e => fail (ErrParsing r e)
  | other => lift other
  end.

(** The loop of [GetRecords]. *)
Fixpoint translateAll (zone : string) (arvanRecords : list arDNSRecord)
                      (records : list libRecord) : outcome (list libRecord) :=
  match arvanRecords with
  | [] => Ok records
  | ar :: rest =>
      match toLibDNSRecord ar zone with
      | Ok libRecord => translateAll zone rest (records ++ [libRecord])%list
      | Err e => Err e
      | Panicked p => Panicked p
      | OutOfFuel => OutOfFuel
      end
  end.

(** [Provider.GetRecords].  (The lock only guards the making of the client,
    which holds the constant base URL and the key.) *)
Definition GetRecords (fuel : nat) (zone : string) : M (list libRecord) :=
  arvanRecords <- getRecords server fuel zone ;;
  lift (translateAll zone arvanRecords []).

(** The loop of [AppendRecords]. *)
Fixpoint appendLoop (zone : string) (records : list libRecord) (addedRecords : list libRecord)
  : M (list libRecord) :=
  match records with
  | [] => ret addedRecords
  | r :: rest =>
      result <- createRecord server zone r ;;
      libRecord <- parsed r (toLibDNSRecord result zone) ;;
      appendLoop zone rest (addedRecords ++ [libRecord])%list
  end.

(** [Provider.AppendRecords]. *)
Definition AppendRecords (zone : string) (records : list libRecord) : M (list libRecord) :=
  appendLoop zone records [].

(** One turn of the loop of [SetRecords], for the input [r]. *)
Definition overwriteOne (zone : string) (existingRecords : list arDNSRecord) (r : libRecord)
  : M unit :=
  match findExistingRecord existingRecords (rrOf r).(RR_Name) (rrOf r).(RR_Type) zone with
  | Some (_, existing) =>
      _ <- deleteRecord server zone existing.(ID) ;;
      ret tt
  | None => ret tt
  end.

(** The loop of [SetRecords] over its inputs. *)
Fixpoint overwriteLoop (zone : string) (existingRecords : list arDNSRecord)
                       (records : list libRecord) : M unit :=
  match records with
  | [] => ret tt
  | r :: rest =>
      _ <- overwriteOne zone existingRecords r ;;
      overwriteLoop zone existingRecords rest
  end.

(** [Provider.SetRecords]. *)
Definition SetRecords (fuel : nat) (zone : string) (records : list libRecord)
  : M (list libRecord) :=
  existingRecords <- getRecords server fuel zone ;;
  _ <- overwriteLoop zone existingRecords records ;;
  AppendRecords zone records.

(** One turn of the loop of [DeleteRecords], for the input [r]: the slice
    [existingRecords] (the update branch assigns to [existing.Value], and
    [existing] points into the slice) and [deletedRecords] after it. *)
Definition deleteOne (zone : string) (existingRecords : list arDNSRecord)
                     (r : libRecord) (deletedRecords : list libRecord)
  : M (list arDNSRecord * list libRecord) :=
  match findExistingRecord existingRecords (rrOf r).(RR_Name) (rrOf r).(RR_Type) zone with
  | None => ret (existingRecords, deletedRecords)
  | Some (i, existing) =>
      if ((rrOf r).(RR_Type) =? "A") || ((rrOf r).(RR_Type) =? "AAAA") then
        let currentVals := decodeARecordValues existing.(Value) in
        let (newVals, found) := removeIP (rrOf r).(RR_Data) currentVals [] false in
        if found then
          if (List.length newVals =? 0)%nat then
            result <- deleteRecord server zone existing.(ID) ;;
            libRecord <- parsed r (toLibDNSRecord result zone) ;;
            ret (existingRecords, (deletedRecords ++ [libRecord])%list)
          else
            let existing := setValue existing (VARecords newVals) in
            let existingRecords := storeAt i existing existingRecords in
            result <- updateRecord server zone existing.(ID) existing ;;
            libRecord <- parsed r (toLibDNSRecord result zone) ;;
            ret (existingRecords, (deletedRecords ++ [libRecord])%list)
        else ret (existingRecords, deletedRecords)
      else
        result <- deleteRecord server zone existing.(ID) ;;
        libRecord <- parsed r (toLibDNSRecord result zone) ;;
        ret (existingRecords, (deletedRecords ++ [libRecord])%list)
  end.

(** The loop of [DeleteRecords] over its inputs. *)
Fixpoint deleteLoop (zone : string) (existingRecords : list arDNSRecord)
                    (records : list libRecord) (deletedRecords : list libRecord)
  : M (list libRecord) :=
  match records with
  | [] => ret deletedRecords
  | r :: rest =>
      st <- deleteOne zone existingRecords r deletedRecords ;;
      deleteLoop zone (fst st) rest (snd st)
  end.

(** [Provider.DeleteRecords]. *)
Definition DeleteRecords (fuel : nat) (zone : string) (records : list libRecord)
  : M (list libRecord) :=
  existingRecords <- getRecords server fuel zone ;;
  deleteLoop zone existingRecords records [].

End Provider.

(* ===================================================================== *)
(** ** Vocabulary of the properties *)
(* ===================================================================== *)

(** The type tags that [toLibDNSRecord] has a case for. *)
Definition knownType (t : string) : bool :=
  existsb (String.eqb t) ["A"; "AAAA"; "CAA"; "CNAME"; "MX"; "NS"; "SRV"; "TXT"].

Definition isAddressType (t : string) : bool := (t =? "A") || (t =? "AAAA").

(** The dynamic type of a value is one that [encoding/json] decodes into. *)
Definition decodedForm (v : any) : bool :=
  match v with
  | Nil | JBool _ | JNumber _ | JString _ | JArray _ | JObject _ => true
  | _ => false
  end.

(** Whether a stored value is a list of entries at all. *)
Definition isArray (v : any) : bool :=
  match v with
  | JArray _ | VARecords _ => true
  | _ => false
  end.

(** What [findExistingRecord] compares of a stored record. *)
Definition keyOf (r : arDNSRecord) : string * string := (r.(Name), r.(Type_)).

Section Vocabulary.
Context {lib : Lib}.

(** The generic records for which the round trip of C6 holds: one of the
    modelled types, a TTL that is an [int64], a name that [RelativeName]
    leaves as it is, and by type: an address that parses back from its
    text, a text of printable ASCII without quote or backslash, a SRV name
    that [libdns] composes to itself when service and transport are empty
    (what [toLibDNSRecord] leaves them). *)
Definition roundTrips (zone : string) (r : libRecord) : Prop :=
  int64 (rrOf r).(RR_TTL)
  /\ RelativeName (rrOf r).(RR_Name) zone = (rrOf r).(RR_Name)
  /\ match r with
     | Address _ _ ip => ParseAddr (AddrString ip) = inr ip
     | TXT _ _ text => plainText text = true
     | SRV service transport name _ _ _ _ _ =>
         srvName "" "" (srvName service transport name) = srvName service transport name
     | Generic _ => False
     | _ => True
     end.

(** The trace after a request of the client is built and, if the request
    constructor accepts it, sent. *)
Definition sent (method url : string) (b : body) (tr : trace) : trace :=
  match newRequestError method (apiBaseURL ++ url) with
  | Some _ => tr
  | None => (tr ++ [mkRequest method (apiBaseURL ++ url) b])%list
  end.

Definition recordURL (zone recordID : string) : string :=
  "/domains/" ++ zone ++ "/dns-records/" ++ recordID.

(** The request of a full delete of the record [recordID]. *)
Definition deleteRequest (zone recordID : string) : request :=
  mkRequest "DELETE" (apiBaseURL ++ recordURL zone recordID) NoBody.

(** The existing record that an input of [SetRecords] or [DeleteRecords]
    is matched to. *)
Definition existingFor (zone : string) (existingRecords : list arDNSRecord) (r : libRecord)
  : option (nat * arDNSRecord) :=
  findExistingRecord existingRecords (rrOf r).(RR_Name) (rrOf r).(RR_Type) zone.

(** The identifiers [SetRecords] deletes for its inputs, in their order. *)
Definition overwriteTargets (zone : string) (existingRecords : list arDNSRecord)
                            (records : list libRecord) : list string :=
  flat_map (fun r => match existingFor zone existingRecords r with
                     | Some (_, existing) => [existing.(ID)]
                     | None => []
                     end) records.

(** The entries left of [currentVals] without those whose IP is [data]. *)
Definition without (data : string) (currentVals : list ARecordValue) : list ARecordValue :=
  filter (fun v => negb (v.(IP) =? data)) currentVals.

Definition hasIP (data : string) (currentVals : list ARecordValue) : bool :=
  existsb (fun v => v.(IP) =? data) currentVals.

End Vocabulary.

(** *** Vocabulary of the further properties *)

(** The path of a page of the listing. *)
Definition pagePath (zone : string) (page : Z) : string :=
  "/domains/" ++ zone ++ "/dns-records?page=" ++ formatInt page ++ "&per_page=100".

(** The request for a page of the listing. *)
Definition pageRequest (zone : string) (page : Z) : request :=
  mkRequest "GET" (apiBaseURL ++ pagePath zone page) NoBody.

(** The page numbers the loop of [getRecords] goes through: each is the
    one before plus one, as an [int]. *)
Fixpoint pagesFrom (page : Z) (n : nat) : list Z :=
  match n with
  | O => []
  | S n' => page :: pagesFrom (wrap64 (page + 1)) n'
  end.

(** The test that ends the loop of [getRecords] after a page. *)
Definition lastPage (p : paginatedResponse) : bool :=
  isNil p.(Links_Next) || (p.(Meta_LastPage) <=? p.(Meta_CurrentPage))%Z.

(** An existing record with its value put aside. *)
Definition withoutValue (r : arDNSRecord) : arDNSRecord := setValue r Nil.



(** What a text field of an entry holds after the JSON object [m] was read
    into the entry: the text of a member of [m] whose key is the name of
    the field, in any case; or, when no such member holds a text (each is
    of another type, or [null]), the empty text, the zero value. *)
Definition textFieldOf (name : string) (m : list (string * any)) (s : string) : Prop :=
  (exists key, In (key, JString s) m /\ EqualFold key name = true)
  \/ (s = ""
      /\ forall key val, In (key, val) m -> EqualFold key name = true ->
                         asString val = None).

(** The same for an [int] field: the whole number of such a member, or
    zero when no such member holds one. *)
Definition intFieldOf (name : string) (m : list (string * any)) (n : Z) : Prop :=
  (exists key val, In (key, val) m /\ EqualFold key name = true /\ asInt val = Some n)
  \/ (n = 0%Z
      /\ forall key val, In (key, val) m -> EqualFold key name = true ->
                         asInt val = None).

(** The entry read from one element of a JSON array: field by field from
    an object, every field zero from anything else. *)
Definition entryOf (v : any) (e : ARecordValue) : Prop :=
  match v with
  | JObject m =>
      textFieldOf "ip" m e.(IP) /\ intFieldOf "port" m e.(Port)
      /\ intFieldOf "weight" m e.(Weight) /\ textFieldOf "country" m e.(Country)
  | _ => e = mkARecordValue "" 0 0 ""
  end.

Section FurtherVocabulary.
Context {lib : Lib}.
Variable server : Server.

(** The peer serves the pages [ps] of the listing of [zone], from the page
    number [page] on, after the trace [tr]: each request is accepted and
    answered with the next page, and the last page alone passes the test
    that ends the loop. *)
Fixpoint served (zone : string) (page : Z) (tr : trace) (ps : list paginatedResponse)
  : Prop :=
  match ps with
  | [] => False
  | p :: rest =>
      newRequestError "GET" (apiBaseURL ++ pagePath zone page) = None
      /\ do server unmarshalPage (pageRequest zone page) zeroPage tr
         = (Ok p, (tr ++ [pageRequest zone page])%list)
      /\ match rest with
         | [] => lastPage p = true
         | _ :: _ =>
             lastPage p = false
             /\ served zone (wrap64 (page + 1)) (tr ++ [pageRequest zone page])%list rest
         end
  end.

(** The request [createRecord] sends, for every input: its body is the
    empty JSON object. *)
Definition createRequest (zone : string) : request :=
  mkRequest "POST" (apiBaseURL ++ "/domains/" ++ zone ++ "/dns-records") EmptyObject.

(** The peer fails the request [req] sent after [tr]: the connection fails,
    or the answer has a status of 400 or more. *)
Definition refuses (tr : trace) (req : request) : Prop :=
  match server (tr ++ [req])%list with
  | inl _ => True
  | inr resp => (400 <= resp.(StatusCode))%Z
  end.

(** A request that changes one of the records [ids] of the zone: the full
    delete of it, or an update of it. *)
Definition touches (zone : string) (ids : list string) (req : request) : Prop :=
  exists recordID,
    In recordID ids
    /\ req.(URL) = apiBaseURL ++ recordURL zone recordID
    /\ (req.(Method) = "DELETE" \/ req.(Method) = "PUT").

End FurtherVocabulary.

(* ===================================================================== *)
(** ** A scripted peer and library, for the worked examples *)
(* ===================================================================== *)

(** The examples below run the adapter against a peer whose answers are
    written down beforehand.  Bodies are named rather than spelled out, and
    the decoders of the library look the names up; addresses are IPv4 in
    dotted-quad form. *)
Module Scripted.

Fixpoint lookup {A : Type} (key : string) (table : list (string * A)) : option A :=
  match table with
  | [] => None
  | (k, a) :: rest => if k =? key then Some a else lookup key rest
  end.

Fixpoint splitOn (sep : ascii) (s cur : string) : list string :=
  match s with
  | EmptyString => [cur]
  | String c s' =>
      if Ascii.eqb c sep then cur :: splitOn sep s' "" else splitOn sep s' (cur ++ str1 c)
  end.

Fixpoint digitsValue (s : string) (acc : N) : option N :=
  match s with
  | EmptyString => Some acc
  | String c s' =>
      let n := N_of_ascii c in
      if ((48 <=? n) && (n <=? 57))%N then digitsValue s' (acc * 10 + (n - 48))%N else None
  end.

(** One field of a dotted quad: decimal, no leading zero, at most 255. *)
Definition parseOctet (s : string) : option N :=
  match s with
  | EmptyString => None
  | String c rest =>
      if Ascii.eqb c "0"%char && negb (rest =? "") then None
      else match digitsValue s 0 with
           | Some v => if (v <=? 255)%N then Some v else None
           | None => None
           end
  end.

Definition parseIPv4 (s : string) : string + Addr :=
  match map parseOctet (splitOn "."%char s "") with
  | [Some a; Some b; Some c; Some d] => inr (Addr4 (((a * 256 + b) * 256 + c) * 256 + d)%N)
  | _ => inl ("ParseAddr(" ++ Quote s ++ "): unable to parse IP")
  end.

Definition formatAddr (a : Addr) : string :=
  match a with
  | Addr4 v =>
      formatN (v / 16777216) ++ "." ++ formatN ((v / 65536) mod 256) ++ "."
      ++ formatN ((v / 256) mod 256) ++ "." ++ formatN (v mod 256)
  | _ => "invalid IP"
  end.

(** What the decoders make of each named body. *)
Record script : Type := mkScript {
  envelopes : list (string * ((string + arResponse) * string));
  pages : list (string * paginatedResponse);
  records : list (string * arDNSRecord);
  singles : list (string * singleRecordResponse)
}.

Definition decodeWith {A : Type} (table : list (string * A)) (data : string) : string + A :=
  match lookup data table with
  | Some a => inr a
  | None => inl "unexpected end of JSON input"
  end.

Definition scriptedLib (sc : script) : Lib :=
  {| ParseAddr := parseIPv4;
     AddrString := formatAddr;
     srvName := fun service transport name => "_" ++ service ++ "._" ++ transport ++ "." ++ name;
     rrParse := fun rr => inr (Generic rr);
     fallbackData := fun s => s;
     newRequestError := fun _ _ => None;
     decodeEnvelope := fun body =>
       match lookup body sc.(envelopes) with
       | Some r => r
       | None => (inl "unexpected end of JSON input", "")
       end;
     unmarshalPage := decodeWith sc.(pages);
     unmarshalRecord := decodeWith sc.(records);
     unmarshalSingle := decodeWith sc.(singles) |}.

(** A peer that answers by the method of the request, and refuses the
    connection for a method it has no answer for. *)
Definition byMethod (answers : list (string * httpResponse)) : Server :=
  fun tr =>
    match lookup (last (map Method tr) "") answers with
    | Some resp => inr resp
    | None => inl "connection refused"
    end.

(** An envelope with nothing but data. *)
Definition dataOnly (data : string) : (string + arResponse) * string :=
  (inr (mkResponse data true [] ""), "").

(** The zone of the examples: one A record of two addresses at "www", one
    TXT record at "mail". *)
Definition entry (ip : string) : any := JObject [("ip", JString ip)].

Definition wwwRecord : arDNSRecord :=
  mkRecord "r1" "A" "www" (JArray [entry "1.1.1.1"; entry "2.2.2.2"]) 120 false false "" None.

Definition mailRecord : arDNSRecord :=
  mkRecord "r2" "TXT" "mail" (JObject [("text", JString "v=spf1 -all")]) 120 false false "" None.

(** The page of a failing gateway, which is no JSON text. *)
Definition gatewayPage : string := "<html><body>502 Bad Gateway</body></html>".

Definition zoneScript : script :=
  mkScript
    [("listing", dataOnly "page-1"); ("echo", dataOnly "deleted");
     (gatewayPage, (inl "invalid character '<' looking for beginning of value", ""))]
    [("page-1", mkPage [wwwRecord; mailRecord] None 1 1)]
    [("deleted", mailRecord)]
    [].

Definition zoneLib : Lib := scriptedLib zoneScript.

(** The peer lists the zone, echoes deletions, and has no answer for a
    creation or an update. *)
Definition zoneServer : Server :=
  byMethod [("GET", mkHTTP 200 "listing"); ("DELETE", mkHTTP 200 "echo")].

(** A peer behind a failing gateway: every answer is a 502 with an HTML page. *)
Definition gatewayServer : Server :=
  fun _ => inr (mkHTTP 502 gatewayPage).

(** The request that lists the first page of the zone "example.com". *)
Definition listRequest : request :=
  mkRequest "GET" (apiBaseURL ++ "/domains/example.com/dns-records?page=1&per_page=100")
            NoBody.

(** A peer that cannot be reached. *)
Definition noServer : Server := fun _ => inl "connection refused".

(** The address 1.1.1.1. *)
Definition oneOneOneOne : Addr := Addr4 16843009.

(** An A record whose value is an object, not an array of entries. *)
Definition objectRecord : arDNSRecord :=
  mkRecord "r3" "A" "api" (JObject [("ip", JString "1.1.1.1")]) 120 false false "" None.

(** An A record with one entry, whose port is a JSON string: the entry does
    not fit [ARecordValue], in which the port is an [int]. *)
Definition portRecord : arDNSRecord :=
  mkRecord "r4" "A" "api"
           (JArray [JObject [("ip", JString "1.1.1.1"); ("port", JString "80")]])
           120 false false "" None.

End Scripted.

(** A zone listed in three pages, for the examples of the page loop. *)
Module ScriptedPages.
Import Scripted.

(** A peer that answers by the URL of the request. *)
Definition byURL (answers : list (string * httpResponse)) : Server :=
  fun tr =>
    match lookup (last (map URL tr) "") answers with
    | Some resp => inr resp
    | None => inl "connection refused"
    end.

Definition firstPage : paginatedResponse := mkPage [wwwRecord] (Some "page-2") 1 3.
Definition secondPage : paginatedResponse := mkPage [mailRecord] (Some "page-3") 2 3.
Definition thirdPage : paginatedResponse := mkPage [objectRecord] None 3 3.

Definition pagedScript : script :=
  mkScript
    [("first", dataOnly "page-1"); ("second", dataOnly "page-2"); ("third", dataOnly "page-3")]
    [("page-1", firstPage); ("page-2", secondPage); ("page-3", thirdPage)]
    [] [].

Definition pagedLib : Lib := scriptedLib pagedScript.

Definition pagedServer : Server :=
  byURL [(URL (pageRequest "example.com" 1), mkHTTP 200 "first");
         (URL (pageRequest "example.com" 2), mkHTTP 200 "second");
         (URL (pageRequest "example.com" 3), mkHTTP 200 "third")].

(** A PTR record, whose value the provider gives as a JSON string, and a
    peer that lists it and answers an update with it. *)
Definition ptrRecord : arDNSRecord :=
  mkRecord "r7" "PTR" "4" (JString "{}") 60 false false "" None.

Definition echoScript : script :=
  mkScript
    [("listing", dataOnly "page"); ("put", dataOnly "updated")]
    [("page", mkPage [ptrRecord] None 1 1)]
    []
    [("updated", mkSingle ptrRecord None)].

Definition echoLib : Lib := scriptedLib echoScript.

Definition echoServer : Server :=
  byMethod [("GET", mkHTTP 200 "listing"); ("PUT", mkHTTP 200 "put")].

End ScriptedPages.

(* ===================================================================== *)
(** * Properties *)
(* ===================================================================== *)

(** ** Byte strings *)

Lemma HasPrefix_char (c d : ascii) (s : string) :
  HasPrefix (String c s) (str1 d) = Ascii.eqb c d.
Proof.
  unfold HasPrefix, str1; simpl.
  destruct (ascii_dec d c) as [->|Hne].
  - rewrite Ascii.eqb_refl. now destruct s.
  - symmetry. apply Ascii.eqb_neq. congruence.
Qed.

Lemma HasSuffix_refl (t : string) : HasSuffix t t = true.
Proof. destruct t; simpl; now rewrite ?Ascii.eqb_refl, ?String.eqb_refl. Qed.

Lemma HasSuffix_app (s t : string) : HasSuffix (s ++ t) t = true.
Proof.
  induction s as [|a s IH]; simpl.
  - apply HasSuffix_refl.
  - rewrite IH. apply orb_true_r.
Qed.

Lemma substring_0_0 (s : string) : substring 0 0 s = "".
Proof. now destruct s. Qed.

Lemma substring_0_app (a b : string) : substring 0 (String.length a) (a ++ b) = a.
Proof.
  induction a as [|c a IH]; simpl.
  - apply substring_0_0.
  - now rewrite IH.
Qed.

Lemma substring_0_all (s : string) : substring 0 (String.length s) s = s.
Proof. induction s as [|c s IH]; simpl; [reflexivity | now rewrite IH]. Qed.

Lemma string_length_app (a b : string) :
  String.length (a ++ b) = (String.length a + String.length b)%nat.
Proof. induction a as [|c a IH]; simpl; [reflexivity | now rewrite IH]. Qed.

Lemma TrimSuffix_app (s t : string) : TrimSuffix (s ++ t) t = s.
Proof.
  unfold TrimSuffix. rewrite HasSuffix_app, string_length_app.
  replace (String.length s + String.length t - String.length t)%nat
    with (String.length s) by lia.
  apply substring_0_app.
Qed.

Lemma TrimPrefix_char (c : ascii) (s : string) : TrimPrefix (String c s) (str1 c) = s.
Proof.
  unfold TrimPrefix. rewrite HasPrefix_char, Ascii.eqb_refl. simpl.
  rewrite Nat.sub_0_r. apply substring_0_all.
Qed.

Lemma plainByte_not_dquote (c : ascii) : plainByte c = true -> Ascii.eqb c dquote = false.
Proof.
  unfold plainByte. intros H.
  apply andb_true_iff in H as [H _]. apply andb_true_iff in H as [_ H].
  now apply negb_true_iff in H.
Qed.

Lemma quoteByte_plain (c : ascii) : plainByte c = true -> quoteByte c = str1 c.
Proof.
  unfold plainByte, quoteByte. intros H.
  apply andb_true_iff in H as [H Hb]. apply andb_true_iff in H as [Hr Hq].
  apply negb_true_iff in Hb. apply negb_true_iff in Hq.
  now rewrite Hq, Hb, Hr.
Qed.

Lemma quoteBody_plain (s : string) : plainText s = true -> quoteBody s = s.
Proof.
  induction s as [|c s IH]; simpl; [reflexivity|].
  intros H. apply andb_true_iff in H as [Hc Hs].
  now rewrite (quoteByte_plain _ Hc), IH.
Qed.

Lemma plain_no_quote_prefix (s : string) :
  plainText s = true -> HasPrefix s (str1 dquote) = false.
Proof.
  destruct s as [|c s]; [reflexivity|].
  intros H. simpl in H. apply andb_true_iff in H as [Hc _].
  rewrite HasPrefix_char. now apply plainByte_not_dquote.
Qed.

Lemma plain_no_quote_suffix (s : string) :
  plainText s = true -> HasSuffix s (str1 dquote) = false.
Proof.
  induction s as [|c s IH]; simpl; [reflexivity|].
  intros H. apply andb_true_iff in H as [Hc Hs].
  rewrite (plainByte_not_dquote _ Hc), (IH Hs). reflexivity.
Qed.

(** ** TXT quote helpers *)

Lemma Quote_has_prefix (s : string) : HasPrefix (Quote s) (str1 dquote) = true.
Proof. unfold Quote. rewrite HasPrefix_char. apply Ascii.eqb_refl. Qed.

Lemma Quote_has_suffix (s : string) : HasSuffix (Quote s) (str1 dquote) = true.
Proof.
  unfold Quote.
  change (String dquote (quoteBody s ++ str1 dquote))
    with ((String dquote (quoteBody s)) ++ str1 dquote).
  apply HasSuffix_app.
Qed.

Lemma unwrap_Quote (s : string) : unwrapContent (Quote s) = quoteBody s.
Proof.
  unfold unwrapContent. rewrite Quote_has_prefix, Quote_has_suffix. simpl.
  unfold Quote.
  change (String dquote (quoteBody s ++ str1 dquote))
    with ((String dquote (quoteBody s)) ++ str1 dquote).
  rewrite TrimSuffix_app. apply TrimPrefix_char.
Qed.

Lemma wrap_plain (s : string) : plainText s = true -> wrapContent s = Quote s.
Proof.
  intros H. unfold wrapContent.
  now rewrite (plain_no_quote_prefix _ H), (plain_no_quote_suffix _ H).
Qed.

Lemma unwrap_wrap_plain (s : string) :
  plainText s = true -> unwrapContent (wrapContent s) = s.
Proof.
  intros H. rewrite (wrap_plain _ H), unwrap_Quote. now apply quoteBody_plain.
Qed.

Lemma wrap_idempotent (s : string) : wrapContent (wrapContent s) = wrapContent s.
Proof.
  unfold wrapContent at 2 3.
  destruct (negb (HasPrefix s (str1 dquote)) && negb (HasSuffix s (str1 dquote))) eqn:E.
  - unfold wrapContent. now rewrite Quote_has_prefix.
  - unfold wrapContent. now rewrite E.
Qed.

(** C7, as amended.  The quote helpers on every text [s]: wrapping is idempotent;
    wrapping a text that starts or ends with a quote changes nothing;
    unwrapping a text that is not inside a pair of quotes changes nothing,
    so unwrapping it twice is unwrapping it once; and unwrapping undoes
    wrapping on a text of printable ASCII bytes without quote or backslash. *)
Theorem quote_helpers (s : string) :
  wrapContent (wrapContent s) = wrapContent s
  /\ (HasPrefix s (str1 dquote) || HasSuffix s (str1 dquote) = true -> wrapContent s = s)
  /\ (HasPrefix s (str1 dquote) && HasSuffix s (str1 dquote) = false ->
      unwrapContent s = s /\ unwrapContent (unwrapContent s) = unwrapContent s)
  /\ (plainText s = true -> unwrapContent (wrapContent s) = s).
Proof.
  split; [apply wrap_idempotent|]. split; [|split].
  - intros H. unfold wrapContent.
    destruct (HasPrefix s (str1 dquote)), (HasSuffix s (str1 dquote));
      simpl in *; congruence.
  - intros H. assert (E : unwrapContent s = s) by (unfold unwrapContent; now rewrite H).
    now rewrite !E.
  - apply unwrap_wrap_plain.
Qed.

(** The amended C7 at the text of an SPF record, and at a quoted text. *)
Lemma quote_helpers_witness :
  unwrapContent (wrapContent "v=spf1 -all") = "v=spf1 -all"
  /\ wrapContent (Quote "x") = Quote "x".
Proof.
  split.
  - apply (quote_helpers "v=spf1 -all"). reflexivity.
  - apply (quote_helpers (Quote "x")). reflexivity.
Defined.

(** C7 fails as stated: unwrapping does not undo wrapping on a text with a
    backslash (the escape that [%q] writes stays in the text), nor on a text
    that is already inside quotes. *)
Lemma unwrap_is_not_inverse_of_wrap :
  unwrapContent (wrapContent "a\b") <> "a\b"
  /\ unwrapContent (wrapContent (Quote "x")) <> Quote "x".
Proof. split; vm_compute; discriminate. Qed.

(** ** Numbers *)

Lemma wrap64_small (z : Z) : int64 z -> wrap64 z = z.
Proof.
  unfold int64, wrap64. intros H.
  rewrite Z.mod_small by lia. lia.
Qed.

(** *** [float64] and the seconds of a duration *)

Unset Implicit Arguments.

Section Float64.
Local Open Scope Z_scope.

Lemma inject_Z_le (x y : Z) : x <= y -> (inject_Z x <= inject_Z y)%Q.
Proof. intros H. now rewrite <- Zle_Qle. Qed.

Lemma truncate_Qeq (x y : Q) : (x == y)%Q -> truncate x = truncate y.
Proof.
  destruct x as [a b], y as [c d]. unfold Qeq, truncate. simpl. intros H.
  rewrite <- (Z.quot_mul_cancel_r a (Zpos b) (Zpos d)) by lia.
  rewrite H, (Z.mul_comm (Zpos b)).
  apply Z.quot_mul_cancel_r; lia.
Qed.

Lemma truncate_inject_Z (k : Z) : truncate (inject_Z k) = k.
Proof. unfold truncate. simpl. apply Z.quot_1_r. Qed.

Lemma truncate_opp (x : Q) : truncate (- x) = - truncate x.
Proof. destruct x as [a b]. unfold truncate. simpl. apply Z.quot_opp_l. lia. Qed.

Lemma truncate_lower (x : Q) (lo : Z) :
  0 <= lo -> (inject_Z lo <= x)%Q -> lo <= truncate x.
Proof.
  destruct x as [a b]. unfold Qle, truncate. simpl. rewrite Z.mul_1_r. intros Hlo H.
  assert (0 <= a) by nia.
  rewrite Z.quot_div_nonneg by lia. apply Z.div_le_lower_bound; lia.
Qed.

Lemma truncate_upper (x : Q) (hi : Z) :
  (0 <= x)%Q -> (x < inject_Z (hi + 1))%Q -> truncate x <= hi.
Proof.
  destruct x as [a b]. unfold Qle, Qlt, truncate. simpl. rewrite !Z.mul_1_r. intros Ha H.
  rewrite Z.quot_div_nonneg by lia.
  assert (a / Z.pos b < hi + 1) by (apply Z.div_lt_upper_bound; lia). lia.
Qed.

Lemma nearestEven_lower (t : Q) (z : Z) : (inject_Z z <= t)%Q -> z <= nearestEven t.
Proof.
  intros H. pose proof (Qlt_floor t) as Hf.
  assert (Hz : z < Qfloor t + 1).
  { rewrite Zlt_Qlt. eapply Qle_lt_trans; eassumption. }
  unfold nearestEven. destruct (t - inject_Z (Qfloor t) ?= 1 # 2)%Q; [|lia|lia].
  destruct (Z.even (Qfloor t)); lia.
Qed.

Lemma nearestEven_upper (t : Q) (z : Z) : (t <= inject_Z z)%Q -> nearestEven t <= z.
Proof.
  intros H. pose proof (Qfloor_le t) as Hf.
  assert (Hz : Qfloor t <= z).
  { rewrite Zle_Qle. eapply Qle_trans; eassumption. }
  unfold nearestEven.
  destruct (t - inject_Z (Qfloor t) ?= 1 # 2)%Q eqn:E; [| exact Hz |].
  - apply Qeq_alt in E.
    assert (Hlt : Qfloor t < z).
    { rewrite Zlt_Qlt. lra. }
    destruct (Z.even (Qfloor t)); lia.
  - apply Qgt_alt in E.
    assert (Hlt : Qfloor t < z).
    { rewrite Zlt_Qlt. lra. }
    lia.
Qed.

Lemma two_power_pos (e : Z) : (0 < 2 ^ e)%Q.
Proof. apply Qpower_0_lt. reflexivity. Qed.

Lemma ulpExponent_bound (a : Q) (p : Z) :
  0 <= p -> (0 < a)%Q -> (a < inject_Z (2 ^ p))%Q -> ulpExponent a <= p - 53.
Proof.
  intros Hp Hpos Hlt. destruct a as [n d].
  assert (Hn : 0 < n) by (unfold Qlt in Hpos; simpl in Hpos; lia).
  assert (Hnd : n < 2 ^ p * Z.pos d).
  { unfold Qlt in Hlt. simpl in Hlt. lia. }
  pose proof (Z.log2_spec n Hn) as [Hn1 _].
  pose proof (Z.log2_spec (Z.pos d) eq_refl) as [_ Hd2].
  pose proof (Z.log2_nonneg n) as Hln. pose proof (Z.log2_nonneg (Z.pos d)) as Hld.
  assert (Hl : Z.log2 n < p + (Z.log2 (Z.pos d) + 1)).
  { apply (Z.pow_lt_mono_r_iff 2); [lia | lia |].
    rewrite Z.pow_add_r by lia.
    assert (0 < 2 ^ p) by (apply Z.pow_pos_nonneg; lia).
    nia. }
  unfold ulpExponent. cbn [Qnum Qden].
  set (e := Z.log2 n - Z.log2 (Z.pos d) - 52).
  destruct (Qle_bool (inject_Z (2 ^ 52) * 2 ^ e) (n # d)) eqn:E; [|lia].
  destruct (Z.eq_dec e (p - 52)) as [He|He]; [|lia].
  exfalso. apply Qle_bool_iff in E.
  assert (Hpow : (inject_Z (2 ^ 52) * 2 ^ e == inject_Z (2 ^ p))%Q).
  { rewrite He, !Zpower_Qpower by lia.
    rewrite <- Qpower_plus by discriminate.
    now replace (52 + (p - 52)) with p by lia. }
  rewrite Hpow in E. apply (Qlt_irrefl (n # d)).
  eapply Qlt_le_trans; eassumption.
Qed.

Lemma eighths_on_grid (c e : Z) :
  e <= -3 -> (c # 8 == inject_Z (c * 2 ^ (- e - 3)) * 2 ^ e)%Q.
Proof.
  intros He. rewrite inject_Z_mult, Zpower_Qpower by lia.
  rewrite <- Qmult_assoc, <- Qpower_plus by discriminate.
  replace (- e - 3 + e) with (-3) by lia.
  unfold Qeq. simpl. lia.
Qed.

Lemma float64_zero (x : Q) : (x == 0)%Q -> float64 x = 0%Q.
Proof.
  intros H. unfold float64. rewrite (Qred_complete _ _ H). reflexivity.
Qed.

Lemma float64_positive (x : Q) :
  (0 < x)%Q ->
  let e := ulpExponent (Qred x) in
  (float64 x == inject_Z (nearestEven (Qred x / 2 ^ e)) * 2 ^ e)%Q.
Proof.
  intros Hpos e. unfold float64.
  assert (Hred : (0 < Qred x)%Q) by now rewrite Qred_correct.
  destruct (Qred x) as [n d] eqn:Ex.
  assert (Hn : 0 < n) by (unfold Qlt in Hred; simpl in Hred; lia).
  cbn [Qnum]. destruct (n =? 0) eqn:E0; [apply Z.eqb_eq in E0; lia|].
  assert (Habs : Qabs (n # d) = n # d) by (unfold Qabs; now rewrite Z.abs_eq by lia).
  rewrite Habs. fold e. rewrite Z.sgn_pos by exact Hn. now rewrite Z.mul_1_l.
Qed.

Lemma float64_eighths (x : Q) (c : Z) :
  (0 <= x)%Q -> (x < inject_Z (2 ^ 50))%Q ->
  ((c # 8 <= x)%Q -> (c # 8 <= float64 x)%Q)
  /\ ((x <= c # 8)%Q -> (float64 x <= c # 8)%Q).
Proof.
  intros Hx Hlt.
  destruct (Qlt_le_dec 0 x) as [Hpos|Hzero].
  2:{ assert (H0 : (x == 0)%Q) by lra. rewrite (float64_zero _ H0).
      split; intros H; lra. }
  pose proof (float64_positive x Hpos) as Hf. cbv zeta in Hf.
  set (e := ulpExponent (Qred x)) in *.
  assert (He : e <= -3).
  { unfold e. replace (-3) with (50 - 53) by reflexivity.
    apply ulpExponent_bound; [lia | now rewrite Qred_correct | now rewrite Qred_correct]. }
  pose proof (two_power_pos e) as Hs.
  pose proof (eighths_on_grid c e He) as Hc.
  set (z := c * 2 ^ (- e - 3)) in *.
  set (t := (Qred x / 2 ^ e)%Q) in *.
  assert (Ht : (t * 2 ^ e == x)%Q).
  { unfold t. rewrite <- (Qred_correct x) at 2. field. lra. }
  rewrite Hf. split; intros H.
  - rewrite Hc. apply Qmult_le_compat_r; [|now apply Qlt_le_weak].
    rewrite <- Zle_Qle. apply nearestEven_lower.
    apply Qmult_le_r with (z := (2 ^ e)%Q); [exact Hs|]. now rewrite Ht, <- Hc.
  - rewrite Hc. apply Qmult_le_compat_r; [|now apply Qlt_le_weak].
    rewrite <- Zle_Qle. apply nearestEven_upper.
    apply Qmult_le_r with (z := (2 ^ e)%Q); [exact Hs|]. now rewrite Ht, <- Hc.
Qed.

Lemma float64_Qeq (x y : Q) : (x == y)%Q -> float64 x = float64 y.
Proof. intros H. unfold float64. now rewrite (Qred_complete _ _ H). Qed.

Lemma float64_whole (k : Z) : 0 <= k < 2 ^ 47 -> (float64 (inject_Z k) == inject_Z k)%Q.
Proof.
  intros Hk.
  assert (H8 : (8 * k # 8 == inject_Z k)%Q) by (unfold Qeq; cbn [Qnum Qden inject_Z]; lia).
  assert (Hx : (0 <= inject_Z k)%Q) by (apply (inject_Z_le 0 k); lia).
  assert (Hlt : (inject_Z k < inject_Z (2 ^ 50))%Q) by (rewrite <- Zlt_Qlt; lia).
  destruct (float64_eighths (inject_Z k) (8 * k) Hx Hlt) as [Hlo Hhi].
  apply Qle_antisym.
  - rewrite <- H8 at 2. apply Hhi. rewrite H8. apply Qle_refl.
  - rewrite <- H8 at 1. apply Hlo. rewrite H8. apply Qle_refl.
Qed.

Lemma Qabs_opp_eq (x : Q) : Qabs (- x) = Qabs x.
Proof. destruct x as [a b]. unfold Qabs, Qopp. simpl. now rewrite Z.abs_opp. Qed.

Lemma float64_opp (x : Q) : (float64 (- x) == - float64 x)%Q.
Proof.
  unfold float64. rewrite Qred_opp.
  destruct (Qred x) as [n d]. cbn [Qopp Qnum].
  replace (- n =? 0) with (n =? 0) by (destruct n; reflexivity).
  destruct (n =? 0); [reflexivity|].
  change (- n # d) with (- (n # d))%Q. rewrite Qabs_opp_eq.
  rewrite Z.sgn_opp, Z.mul_opp_l, inject_Z_opp. ring.
Qed.

Lemma eighths_value (k c : Z) : (8 * k + c # 8 == inject_Z k + (c # 8))%Q.
Proof. unfold Qeq, Qplus. cbn [Qnum Qden inject_Z Pos.mul]. lia. Qed.

#[local] Instance float64_Proper : Proper (Qeq ==> Qeq) float64.
Proof. intros x y H. now rewrite (float64_Qeq _ _ H). Qed.

Lemma Seconds_opp (d : Z) : (Seconds (- d) == - Seconds d)%Q.
Proof.
  unfold Seconds.
  rewrite Z.quot_opp_l, Z.rem_opp_l by (unfold Second; lia).
  rewrite !inject_Z_opp.
  set (S := inject_Z (Z.quot d Second)). set (N := inject_Z (Z.rem d Second)).
  rewrite (float64_opp S), (float64_opp N).
  assert (E : (- float64 N / 1000000000 == - (float64 N / 1000000000))%Q) by field.
  rewrite E, (float64_opp (float64 N / 1000000000)).
  assert (E2 : (- float64 S + - float64 (float64 N / 1000000000)
                == - (float64 S + float64 (float64 N / 1000000000)))%Q) by ring.
  rewrite E2. apply float64_opp.
Qed.

Lemma durationSeconds_opp (d : Z) : durationSeconds (- d) = - durationSeconds d.
Proof.
  unfold durationSeconds. rewrite (truncate_Qeq _ _ (Seconds_opp d)).
  apply truncate_opp.
Qed.

Lemma durationSeconds_nonneg (d : Z) :
  0 <= d <= 2 ^ 63 ->
  Z.quot d Second <= durationSeconds d <= 9223372036.
Proof.
  intros Hd. unfold durationSeconds, Seconds.
  pose proof (Z.quot_rem' d Second) as Hqr.
  assert (Hrem : 0 <= Z.rem d Second < Second).
  { apply Z.rem_bound_pos; unfold Second; lia. }
  set (sec := Z.quot d Second) in *. set (nsec := Z.rem d Second) in *.
  unfold Second in Hqr, Hrem.
  assert (Hsec : 0 <= sec <= 9223372036) by lia.
  assert (Hedge : sec = 9223372036 -> nsec <= 854775808) by lia.
  pose proof (float64_whole sec ltac:(lia)) as HA.
  pose proof (float64_whole nsec ltac:(lia)) as HN.
  set (A := float64 (inject_Z sec)) in *.
  set (N := float64 (inject_Z nsec)) in *.
  assert (HsecQ : (0 <= inject_Z sec <= 9223372036)%Q).
  { split; [apply (inject_Z_le 0 sec) | apply (inject_Z_le sec 9223372036)]; lia. }
  assert (HnsecQ : (0 <= inject_Z nsec <= 999999999)%Q).
  { split; [apply (inject_Z_le 0 nsec) | apply (inject_Z_le nsec 999999999)]; lia. }
  set (q := (N / 1000000000)%Q).
  assert (Hq : (q * 1000000000 == inject_Z nsec)%Q) by (unfold q; rewrite HN; field).
  assert (Hq0 : (0 <= q)%Q) by lra.
  assert (Hq1 : (q < inject_Z (2 ^ 50))%Q).
  { change (inject_Z (2 ^ 50)) with 1125899906842624%Q. lra. }
  destruct (float64_eighths q 0 Hq0 Hq1) as [HB0 _].
  destruct (float64_eighths q 8 Hq0 Hq1) as [_ HB1].
  destruct (float64_eighths q 7 Hq0 Hq1) as [_ HB7].
  set (B := float64 q) in *.
  assert (HBlo : (0 <= B)%Q).
  { assert (0 # 8 <= B)%Q by (apply HB0; lra). lra. }
  assert (HBhi : (B <= 1)%Q).
  { assert (B <= 8 # 8)%Q by (apply HB1; lra). lra. }
  set (x := (A + B)%Q).
  assert (Hx0 : (0 <= x)%Q) by (unfold x; lra).
  assert (Hx1 : (x < inject_Z (2 ^ 50))%Q).
  { change (inject_Z (2 ^ 50)) with 1125899906842624%Q. unfold x. lra. }
  destruct (float64_eighths x (8 * sec + 0) Hx0 Hx1) as [HRlo _].
  destruct (float64_eighths x (8 * sec + 8) Hx0 Hx1) as [_ HRhi].
  destruct (float64_eighths x (8 * sec + 7) Hx0 Hx1) as [_ HR7].
  rewrite eighths_value in HRlo, HRhi, HR7.
  set (R := float64 x) in *.
  assert (HR0 : (inject_Z sec <= R)%Q) by (unfold x in HRlo; lra).
  assert (HR1 : (R <= inject_Z sec + 1)%Q).
  { assert (R <= inject_Z sec + (8 # 8))%Q by (apply HRhi; unfold x; lra). lra. }
  split.
  - apply truncate_lower; [lia | exact HR0].
  - destruct (Z.eq_dec sec 9223372036) as [Hlast|Hnot].
    + assert (HnQ : (inject_Z nsec <= 854775808)%Q).
      { apply (inject_Z_le nsec 854775808). auto. }
      assert (HB78 : (B <= 7 # 8)%Q) by (apply HB7; lra).
      assert (HR78 : (R <= inject_Z sec + (7 # 8))%Q) by (apply HR7; unfold x; lra).
      apply truncate_upper; [lra|].
      rewrite inject_Z_plus. rewrite Hlast in *. 
      change (inject_Z 1) with 1%Q. lra.
    + assert (Hle : truncate R <= sec + 1).
      { apply truncate_upper; [lra|]. rewrite !inject_Z_plus.
        change (inject_Z 1) with 1%Q. lra. }
      lia.
Qed.

Lemma durationSeconds_bound (d : Z) :
  int64 d -> (-9223372036 <= durationSeconds d <= 9223372036)%Z.
Proof.
  unfold int64. intros Hd. destruct (Z.le_gt_cases 0 d) as [Hpos|Hneg].
  - pose proof (durationSeconds_nonneg d ltac:(lia)) as [Hlo Hhi].
    assert (0 <= Z.quot d Second) by (apply Z.quot_pos; unfold Second; lia). lia.
  - pose proof (durationSeconds_nonneg (- d) ltac:(lia)) as [Hlo Hhi].
    rewrite durationSeconds_opp in Hlo, Hhi.
    assert (0 <= Z.quot (- d) Second) by (apply Z.quot_pos; unfold Second; lia). lia.
Qed.

Lemma durationSeconds_whole_nonneg (k : Z) :
  0 <= k <= 9223372036 -> durationSeconds (k * Second) = k.
Proof.
  intros Hk. unfold durationSeconds, Seconds.
  rewrite Z.quot_mul, Z.rem_mul by (unfold Second; lia).
  assert (E : (float64 (inject_Z k) + float64 (float64 (inject_Z 0) / 1000000000)
               == inject_Z k)%Q).
  { rewrite (float64_whole k) by lia.
    change (float64 (float64 (inject_Z 0) / 1000000000)) with 0%Q. ring. }
  rewrite (float64_Qeq _ _ E), (truncate_Qeq _ _ (float64_whole k ltac:(lia))).
  apply truncate_inject_Z.
Qed.

Lemma durationSeconds_whole (k : Z) :
  -9223372036 <= k <= 9223372036 -> durationSeconds (k * Second) = k.
Proof.
  intros Hk. destruct (Z.le_gt_cases 0 k) as [Hpos|Hneg].
  - apply durationSeconds_whole_nonneg. lia.
  - replace (k * Second) with (- (- k * Second)) by ring.
    rewrite durationSeconds_opp, durationSeconds_whole_nonneg by lia. lia.
Qed.


End Float64.

Set Implicit Arguments.

(** The model of [float64] gives what IEEE 754 arithmetic gives, at the
    sample durations. *)
Example Seconds_agrees_with_IEEE754 :
  forallb (fun d => Qeq_bool (IEEE754.valueOf (IEEE754.secondsOf d)) (Seconds d))
          IEEE754.samples = true.
Proof. vm_compute. reflexivity. Qed.

(** From 2^24 seconds on, a duration a nanosecond short of a whole second
    has that whole second for seconds; the quotient is one less. *)
Example durationSeconds_rounds_up :
  durationSeconds 16777216999999999 = 16777217%Z
  /\ Z.quot 16777216999999999 Second = 16777216%Z.
Proof. vm_compute. split; reflexivity. Qed.

Lemma whole_seconds_in_range (d : Z) : int64 d -> int64 (durationSeconds d * Second).
Proof.
  intros H. pose proof (durationSeconds_bound d H) as Hb.
  unfold int64, Second. lia.
Qed.

(** The seconds of a TTL survive the way to a generic record and back. *)
Lemma seconds_round_trip (d : Z) :
  int64 d -> durationSeconds (wrap64 (durationSeconds d * Second)) = durationSeconds d.
Proof.
  intros H. rewrite wrap64_small by now apply whole_seconds_in_range.
  apply durationSeconds_whole. now apply durationSeconds_bound.
Qed.

(** ** Record codec *)

Section CodecProperties.
Context {lib : Lib}.

(** C6, as amended.  [toProvider (toGeneric (toProvider r)) = toProvider r]
    for every generic record [r] of a modelled type that [roundTrips]. *)
Theorem codec_round_trip (zone : string) (r : libRecord) :
  roundTrips zone r ->
  exists r', toLibDNSRecord (arvancloudRecord r) zone = Ok r'
             /\ arvancloudRecord r' = arvancloudRecord r.
Proof.
  intros (Httl & Hname & Hkind).
  destruct r as [name ttl ip | name ttl flags tag value | name ttl target
                | name ttl pref target | name ttl target
                | service transport name ttl prio weight port target
                | name ttl text | rr];
    simpl in Httl, Hname, Hkind; try contradiction.
  - (* Address *)
    unfold toLibDNSRecord, arvancloudRecord; simpl.
    destruct (Is6 ip) eqn:E6; simpl; rewrite Hkind, Hname; eexists; split;
      try reflexivity; simpl; rewrite E6;
      unfold setValue; simpl; now rewrite seconds_round_trip.
  - (* CAA *)
    unfold toLibDNSRecord, arvancloudRecord; simpl. rewrite Hname.
    eexists; split; [reflexivity|]. unfold setValue; simpl.
    now rewrite seconds_round_trip.
  - (* CNAME *)
    unfold toLibDNSRecord, arvancloudRecord; simpl. rewrite Hname.
    eexists; split; [reflexivity|]. unfold setValue; simpl.
    now rewrite seconds_round_trip.
  - (* MX *)
    unfold toLibDNSRecord, arvancloudRecord; simpl. rewrite Hname.
    eexists; split; [reflexivity|]. unfold setValue; simpl.
    now rewrite seconds_round_trip.
  - (* NS *)
    unfold toLibDNSRecord, arvancloudRecord; simpl. rewrite Hname.
    eexists; split; [reflexivity|]. unfold setValue; simpl.
    now rewrite seconds_round_trip.
  - (* SRV *)
    unfold toLibDNSRecord, arvancloudRecord; simpl. rewrite Hname.
    eexists; split; [reflexivity|]. unfold setValue; simpl.
    now rewrite seconds_round_trip, Hkind.
  - (* TXT *)
    unfold toLibDNSRecord, arvancloudRecord; simpl. rewrite Hname.
    eexists; split; [reflexivity|]. unfold setValue; simpl.
    now rewrite seconds_round_trip, (unwrap_wrap_plain _ Hkind).
Qed.

End CodecProperties.

(** The amended C6 at a TXT record of two minutes. *)
Lemma codec_round_trip_witness :
  exists r',
    @toLibDNSRecord Scripted.zoneLib
      (@arvancloudRecord Scripted.zoneLib (TXT "mail" 120000000000 "v=spf1 -all"))
      "example.com" = Ok r'
    /\ @arvancloudRecord Scripted.zoneLib r'
       = @arvancloudRecord Scripted.zoneLib (TXT "mail" 120000000000 "v=spf1 -all").
Proof.
  apply (@codec_round_trip Scripted.zoneLib "example.com"
           (TXT "mail" 120000000000 "v=spf1 -all")).
  unfold roundTrips, int64; simpl.
  split; [lia|]. split; reflexivity.
Defined.

(** C6 fails as stated: a TXT record whose text holds a backslash comes back
    from the provider form with the escape in its text, and its second
    provider form escapes the escape. *)
Lemma txt_round_trip_fails :
  exists r',
    @toLibDNSRecord Scripted.zoneLib
      (@arvancloudRecord Scripted.zoneLib (TXT "www" 120000000000 "a\b"))
      "example.com" = Ok r'
    /\ @arvancloudRecord Scripted.zoneLib r'
       <> @arvancloudRecord Scripted.zoneLib (TXT "www" 120000000000 "a\b").
Proof.
  eexists; split; [vm_compute; reflexivity|].
  vm_compute. discriminate.
Qed.

Section DecodedValues.
Context {lib : Lib}.

Lemma jsonDecoded_form (v : any) : jsonDecoded v = true -> decodedForm v = true.
Proof. destruct v; simpl; intros H; try reflexivity; discriminate. Qed.

(** A type assertion on a value that [encoding/json] left in an [any]
    fails: none of the value structs is among the decoded forms. *)
Lemma type_assertion_fails (r : arDNSRecord) (zone : string) :
  knownType r.(Type_) = true ->
  decodedForm r.(Value) = true ->
  toLibDNSRecord r zone = Panicked (InterfaceConversion r.(Value)).
Proof.
  unfold knownType, toLibDNSRecord. simpl. intros Hk Hv.
  destruct (Type_ r =? "A"), (Type_ r =? "AAAA"), (Type_ r =? "CAA"),
    (Type_ r =? "CNAME"), (Type_ r =? "MX"), (Type_ r =? "NS"),
    (Type_ r =? "SRV"), (Type_ r =? "TXT");
    simpl in Hk |- *; try discriminate Hk;
    destruct (Value r); simpl in Hv; try discriminate Hv; reflexivity.
Qed.

(** C2 fails on the code; what the code does: on a record of a known type
    whose value is as [encoding/json] left it, [toLibDNSRecord] returns
    neither a generic record nor an error: it panics at the type assertion,
    whatever the value. *)
Theorem toLibDNSRecord_panics_on_decoded_value (r : arDNSRecord) (zone : string) :
  knownType r.(Type_) = true ->
  jsonDecoded r.(Value) = true ->
  toLibDNSRecord r zone = Panicked (InterfaceConversion r.(Value))
  /\ isOk (toLibDNSRecord r zone) = false.
Proof.
  intros Hk Hv. rewrite (type_assertion_fails r zone Hk (jsonDecoded_form _ Hv)). now split.
Qed.

Lemma translateAll_stops (zone : string) (ar : arDNSRecord) (p : panic) :
  toLibDNSRecord ar zone = Panicked p ->
  forall arvanRecords records,
    In ar arvanRecords -> isOk (translateAll zone arvanRecords records) = false.
Proof.
  intros Hp arvanRecords.
  induction arvanRecords as [|x rest IH]; intros records Hin; [contradiction|].
  simpl. destruct Hin as [->|Hin].
  - now rewrite Hp.
  - destruct (toLibDNSRecord x zone); try reflexivity. now apply IH.
Qed.

(** C1 fails on the code; what the code does: when the listing holds an A or
    AAAA record whose value is an array of entries, [GetRecords] returns no
    records at all (it ends in the panic of [toLibDNSRecord], or in the
    error of an earlier record). *)
Theorem GetRecords_array_value_lists_nothing
    (server : Server) (fuel : nat) (zone : string) (tr tr' : trace)
    (arvanRecords : list arDNSRecord) (ar : arDNSRecord) (entries : list any) :
  getRecords server fuel zone tr = (Ok arvanRecords, tr') ->
  In ar arvanRecords ->
  isAddressType ar.(Type_) = true ->
  ar.(Value) = JArray entries ->
  exists o, GetRecords server fuel zone tr = (o, tr') /\ isOk o = false.
Proof.
  intros Hget Hin Hty Hval.
  unfold GetRecords, bind. rewrite Hget. unfold lift.
  eexists; split; [reflexivity|].
  apply translateAll_stops with (ar := ar) (p := InterfaceConversion (JArray entries)); [|exact Hin].
  rewrite <- Hval. apply type_assertion_fails.
  - unfold isAddressType in Hty. unfold knownType; simpl.
    destruct (Type_ ar =? "A"), (Type_ ar =? "AAAA"); simpl in *; try reflexivity; discriminate.
  - now rewrite Hval.
Qed.

(** And when every record translates, the listing has one generic record
    for each provider record, in their order: an array of entries is never
    split. *)
Lemma translateAll_one_per_record (zone : string) :
  forall arvanRecords records out,
    translateAll zone arvanRecords records = Ok out ->
    List.length out = (List.length records + List.length arvanRecords)%nat.
Proof.
  induction arvanRecords as [|ar rest IH]; intros records out; simpl.
  - intros H. injection H as <-. lia.
  - destruct (toLibDNSRecord ar zone) as [libRecord|e|p|]; try discriminate.
    intros H. apply IH in H. rewrite H, List.length_app. simpl. lia.
Qed.

End DecodedValues.

(** C2's theorem at the TXT record of the example zone. *)
Lemma toLibDNSRecord_panics_witness :
  @toLibDNSRecord Scripted.zoneLib Scripted.mailRecord "example.com"
    = Panicked (InterfaceConversion (JObject [("text", JString "v=spf1 -all")]))
  /\ isOk (@toLibDNSRecord Scripted.zoneLib Scripted.mailRecord "example.com") = false.
Proof.
  apply (@toLibDNSRecord_panics_on_decoded_value Scripted.zoneLib
           Scripted.mailRecord "example.com"); reflexivity.
Defined.

(** C1's theorem at the example zone, whose A record holds two addresses. *)
Lemma GetRecords_array_value_witness :
  exists o,
    @GetRecords Scripted.zoneLib Scripted.zoneServer 3 "example.com" []
      = (o, [Scripted.listRequest])
    /\ isOk o = false.
Proof.
  apply (@GetRecords_array_value_lists_nothing Scripted.zoneLib Scripted.zoneServer
           3 "example.com" [] [Scripted.listRequest]
           [Scripted.wwwRecord; Scripted.mailRecord] Scripted.wwwRecord
           [Scripted.entry "1.1.1.1"; Scripted.entry "2.2.2.2"]).
  - reflexivity.
  - now left.
  - reflexivity.
  - reflexivity.
Defined.

(** The listing of the example zone ends in the panic. *)
Example GetRecords_example_zone :
  @GetRecords Scripted.zoneLib Scripted.zoneServer 3 "example.com" []
  = (Panicked (InterfaceConversion
                 (JArray [Scripted.entry "1.1.1.1"; Scripted.entry "2.2.2.2"])),
     [Scripted.listRequest]).
Proof. reflexivity. Qed.

(** ** Record locator *)

Lemma toLower_at (b : ascii) : Ascii.eqb "@"%char (toLower b) = true -> b = "@"%char.
Proof.
  destruct b as [[] [] [] [] [] [] [] []]; vm_compute; intros H;
    try discriminate H; reflexivity.
Qed.

Lemma EqualFold_at (zone : string) : zone <> "@" -> EqualFold "@" zone = false.
Proof.
  intros Hne. destruct zone as [|b t]; [reflexivity|].
  change (EqualFold "@" (String b t))
    with (Ascii.eqb "@"%char (toLower b) && EqualFold "" t).
  destruct (Ascii.eqb "@"%char (toLower b)) eqn:E; [|reflexivity].
  apply toLower_at in E. subst b.
  destruct t; [congruence | reflexivity].
Qed.

Lemma storedName_at (zone : string) : storedName "@" zone = "@".
Proof.
  unfold storedName. change ("@" =? "@") with true.
  simpl negb. rewrite andb_false_r. reflexivity.
Qed.

Lemma AbsoluteName_apex (zone : string) : zone <> "" -> AbsoluteName "@" zone = zone.
Proof.
  intros Hne. unfold AbsoluteName.
  destruct (zone =? "") eqn:E; [apply String.eqb_eq in E; congruence | reflexivity].
Qed.

(** C3 fails on the code; what the code does with the apex marker: in a
    zone other than "@", a search for the apex ("@") finds none of the
    stored records named "@", whatever their type. *)
Theorem apex_marker_is_not_found (records : list arDNSRecord) (rType zone : string) :
  zone <> "" -> zone <> "@" ->
  (forall r, In r records -> r.(Name) = "@") ->
  findExistingRecord records "@" rType zone = None.
Proof.
  intros Hz Hat Hall. unfold findExistingRecord.
  rewrite (AbsoluteName_apex Hz).
  generalize 0%nat.
  induction records as [|r rest IH]; intros i; [reflexivity|].
  simpl. unfold matches.
  rewrite (Hall r (or_introl eq_refl)), storedName_at, (EqualFold_at Hat). simpl.
  apply IH. intros r' Hin. apply Hall. now right.
Qed.

(** C3's theorem at the zone "example.com" with one A record at the apex. *)
Lemma apex_marker_witness :
  findExistingRecord [mkRecord "r0" "A" "@" Nil 120 false false "" None]
                     "@" "A" "example.com" = None.
Proof.
  apply (@apex_marker_is_not_found
           [mkRecord "r0" "A" "@" Nil 120 false false "" None] "A" "example.com").
  - discriminate.
  - discriminate.
  - intros r [<-|[]]. reflexivity.
Defined.

(** The search name keeps the dot that ends the zone, the stored name is
    trimmed of it: in a zone written with its final dot, the record "www" is
    not found under its own name. *)
Example final_dot_zone_is_not_found :
  findExistingRecord [Scripted.wwwRecord] "www" "A" "example.com." = None
  /\ findExistingRecord [Scripted.wwwRecord] "www" "A" "example.com"
     = Some (0%nat, Scripted.wwwRecord).
Proof. split; reflexivity. Qed.

(** ** Transport client *)

Section ClientProperties.
Context {lib : Lib}.
Variable server : Server.

(** C8 fails on the code in its second half; what the code does: a response
    of status 400 or more is an error whatever the body holds, and the text
    of the error is the decoder's message when the body is no envelope, and
    otherwise "API error", the status and what the decoder left unread of
    the body. *)
Theorem do_on_error_status {A : Type} (unmarshal : string -> string + A)
    (req : request) (result : A) (tr : trace) (resp : httpResponse) :
  server (tr ++ [req])%list = inr resp ->
  (400 <= resp.(StatusCode))%Z ->
  exists e,
    do server unmarshal req result tr = (Err e, (tr ++ [req])%list)
    /\ transportErrorText e
       = Some (match decodeEnvelope resp.(Body) with
               | (inl msg, _) => msg
               | (inr _, unread) => apiErrorText resp.(StatusCode) unread
               end).
Proof.
  intros Hresp Hstatus. unfold do. rewrite Hresp.
  destruct (decodeEnvelope (Body resp)) as [[msg|respData] unread].
  - eexists; split; reflexivity.
  - apply Z.leb_le in Hstatus. rewrite Hstatus.
    eexists; split; reflexivity.
Qed.

End ClientProperties.

(** C8's theorem behind a failing gateway: the error is the decoder's, and
    its text says nothing of the page. *)
Lemma do_on_error_status_witness :
  exists e,
    @do Scripted.zoneLib Scripted.gatewayServer arDNSRecord
        (@unmarshalRecord Scripted.zoneLib) Scripted.listRequest zeroRecord []
      = (Err e, [Scripted.listRequest])
    /\ transportErrorText e = Some "invalid character '<' looking for beginning of value".
Proof.
  apply (@do_on_error_status Scripted.zoneLib Scripted.gatewayServer arDNSRecord
           (@unmarshalRecord Scripted.zoneLib) Scripted.listRequest zeroRecord []
           (mkHTTP 502 Scripted.gatewayPage)).
  - reflexivity.
  - vm_compute. discriminate.
Defined.

(** ** Provider facade *)

Lemma bind_ret_l {A B : Type} (a : A) (k : A -> M B) (tr : trace) :
  bind (ret a) k tr = k a tr.
Proof. reflexivity. Qed.

Lemma bind_assoc {A B C : Type} (m : M A) (k : A -> M B) (h : B -> M C) (tr : trace) :
  bind (bind m k) h tr = bind m (fun a => bind (k a) h) tr.
Proof. unfold bind. now destruct (m tr) as [[?|?|?|] ?]. Qed.

Lemma bind_ext {A B : Type} (m : M A) (k k' : A -> M B) (tr : trace) :
  (forall a tr', k a tr' = k' a tr') -> bind m k tr = bind m k' tr.
Proof. intros H. unfold bind. destruct (m tr) as [[?|?|?|] ?]; auto. Qed.

(** A continuation that sends nothing leaves the trace of what ran before. *)
Lemma snd_bind_quiet {A B : Type} (m : M A) (k : A -> M B) (tr : trace) :
  (forall a tr', snd (k a tr') = tr') -> snd (bind m k tr) = snd (m tr).
Proof.
  intros Hk. unfold bind. destruct (m tr) as [[a|e|p|] tr']; simpl; auto.
Qed.

Lemma removeIP_spec (data : string) (currentVals newVals : list ARecordValue) (found : bool) :
  removeIP data currentVals newVals found
  = ((newVals ++ without data currentVals)%list, found || hasIP data currentVals).
Proof.
  revert newVals found.
  induction currentVals as [|v rest IH]; intros newVals found; simpl.
  - now rewrite app_nil_r, orb_false_r.
  - destruct (IP v =? data) eqn:E; simpl; rewrite IH.
    + now rewrite orb_true_r.
    + now rewrite <- app_assoc.
Qed.

Lemma without_length (data : string) (currentVals : list ARecordValue) :
  (List.length (without data currentVals) =? 0)%nat = true <-> without data currentVals = [].
Proof.
  destruct (without data currentVals); simpl; split; intros H;
    try reflexivity; discriminate.
Qed.

Section FacadeProperties.
Context {lib : Lib}.
Variable server : Server.

Lemma do_trace {A : Type} (unmarshal : string -> string + A) (req : request) (result : A)
    (tr : trace) :
  snd (do server unmarshal req result tr) = (tr ++ [req])%list.
Proof.
  unfold do. destruct (server (tr ++ [req])%list) as [err|resp]; [reflexivity|].
  destruct (decodeEnvelope (Body resp)) as [[msg|respData] unread]; [reflexivity|].
  destruct (400 <=? StatusCode resp)%Z; [reflexivity|].
  destruct (0 <? List.length (Errors respData))%nat; [reflexivity|].
  destruct (0 <? String.length (Data respData))%nat; [|reflexivity].
  now destruct (unmarshal (Data respData)).
Qed.

Lemma do_ok {A : Type} (unmarshal : string -> string + A) (req : request) (result a : A)
    (tr tr' : trace) :
  do server unmarshal req result tr = (Ok a, tr') -> tr' = (tr ++ [req])%list.
Proof. intros H. rewrite <- (do_trace unmarshal req result tr). now rewrite H. Qed.

Lemma deleteRecord_trace (zone recordID : string) (tr : trace) :
  snd (deleteRecord server zone recordID tr)
  = sent "DELETE" (recordURL zone recordID) NoBody tr.
Proof.
  unfold deleteRecord, sent, newRequest, recordURL, bind.
  destruct (newRequestError "DELETE" _); simpl; [reflexivity|].
  unfold ret. apply do_trace.
Qed.

Lemma deleteRecord_ok (zone recordID : string) (a : arDNSRecord) (tr tr' : trace) :
  deleteRecord server zone recordID tr = (Ok a, tr') ->
  tr' = (tr ++ [deleteRequest zone recordID])%list.
Proof.
  unfold deleteRecord, deleteRequest, newRequest, recordURL, bind.
  destruct (newRequestError "DELETE" _); simpl; [discriminate|].
  unfold ret. apply do_ok.
Qed.

Lemma updateRecord_trace (zone recordID : string) (record : arDNSRecord) (tr : trace) :
  snd (updateRecord server zone recordID record tr)
  = sent "PUT" (recordURL zone recordID) (RecordJSON record) tr.
Proof.
  unfold updateRecord, sent, newRequest, recordURL.
  unfold bind at 1.
  destruct (newRequestError "PUT" _); simpl; [reflexivity|].
  unfold ret. rewrite snd_bind_quiet by reflexivity. apply do_trace.
Qed.

Lemma parsed_quiet (r : libRecord) (o : outcome libRecord) (tr : trace) :
  snd (parsed r o tr) = tr.
Proof. now destruct o. Qed.

(** *** The entries read from a value *)

Lemma EqualFold_both (key a b : string) :
  EqualFold key a = true -> EqualFold key b = true -> EqualFold a b = true.
Proof.
  revert a b. induction key as [|c key IH]; intros [|x a] [|y b]; simpl;
    try discriminate; try reflexivity.
  intros Ha Hb. apply andb_true_iff in Ha as [Hx Ha]. apply andb_true_iff in Hb as [Hy Hb].
  apply Ascii.eqb_eq in Hx, Hy. rewrite <- Hx, <- Hy, Ascii.eqb_refl. simpl.
  now apply IH.
Qed.

Lemma EqualFold_other (key a b : string) :
  EqualFold a b = false -> EqualFold key a = true -> EqualFold key b = false.
Proof.
  intros Hab Ha. destruct (EqualFold key b) eqn:Hb; [|reflexivity].
  now rewrite (EqualFold_both _ _ _ Ha Hb) in Hab.
Qed.

Lemma insertKey_In (kv x : string * any) (l : list (string * any)) :
  In x (insertKey kv l) <-> x = kv \/ In x l.
Proof.
  induction l as [|kv' rest IH]; simpl.
  - split; intros [H|H]; auto.
  - destruct (String.leb (fst kv) (fst kv')); simpl; [|rewrite IH];
      split; intros H; intuition congruence.
Qed.

Lemma sortKeys_In (x : string * any) (m : list (string * any)) :
  In x (sortKeys m) <-> In x m.
Proof.
  induction m as [|kv rest IH]; simpl; [reflexivity|].
  rewrite insertKey_In, IH. split; intros [H|H]; auto.
Qed.

Lemma textFieldOf_sortKeys (name : string) (m : list (string * any)) (s : string) :
  textFieldOf name (sortKeys m) s -> textFieldOf name m s.
Proof.
  intros [(key & Hin & Hk)|[-> Hnone]].
  - left. exists key. split; [now apply sortKeys_In | exact Hk].
  - right. split; [reflexivity|]. intros key val Hin.
    apply Hnone. now apply sortKeys_In.
Qed.

Lemma intFieldOf_sortKeys (name : string) (m : list (string * any)) (n : Z) :
  intFieldOf name (sortKeys m) n -> intFieldOf name m n.
Proof.
  intros [(key & val & Hin & Hk)|[-> Hnone]].
  - left. exists key, val. split; [now apply sortKeys_In | exact Hk].
  - right. split; [reflexivity|]. intros key val Hin.
    apply Hnone. now apply sortKeys_In.
Qed.

(** What one member of an object does to each field of the entry. *)
Lemma storeField_IP (e : ARecordValue) (key : string) (val : any) :
  (exists s, val = JString s /\ EqualFold key "ip" = true
             /\ IP (storeField e (key, val)) = s)
  \/ (IP (storeField e (key, val)) = IP e
      /\ (EqualFold key "ip" = true -> asString val = None)).
Proof.
  unfold storeField. destruct (EqualFold key "ip") eqn:Hip.
  - destruct val; simpl; try (right; split; [reflexivity | reflexivity]).
    left. eexists. repeat split.
  - right. split; [|discriminate].
    destruct (EqualFold key "port"); [now destruct (asInt val)|].
    destruct (EqualFold key "weight"); [now destruct (asInt val)|].
    destruct (EqualFold key "country"); [now destruct (asString val)|reflexivity].
Qed.

Lemma storeField_Country (e : ARecordValue) (key : string) (val : any) :
  (exists s, val = JString s /\ EqualFold key "country" = true
             /\ Country (storeField e (key, val)) = s)
  \/ (Country (storeField e (key, val)) = Country e
      /\ (EqualFold key "country" = true -> asString val = None)).
Proof.
  unfold storeField. destruct (EqualFold key "ip") eqn:Hip.
  - right. rewrite (EqualFold_other key "ip" "country" eq_refl Hip).
    split; [now destruct (asString val) | discriminate].
  - destruct (EqualFold key "port") eqn:Hport.
    { right. rewrite (EqualFold_other key "port" "country" eq_refl Hport).
      split; [now destruct (asInt val) | discriminate]. }
    destruct (EqualFold key "weight") eqn:Hweight.
    { right. rewrite (EqualFold_other key "weight" "country" eq_refl Hweight).
      split; [now destruct (asInt val) | discriminate]. }
    destruct (EqualFold key "country").
    + destruct val; simpl; try (right; split; [reflexivity | reflexivity]).
      left. eexists. repeat split.
    + right. split; [reflexivity | discriminate].
Qed.

Lemma storeField_Port (e : ARecordValue) (key : string) (val : any) :
  (EqualFold key "port" = true /\ asInt val = Some (Port (storeField e (key, val))))
  \/ (Port (storeField e (key, val)) = Port e
      /\ (EqualFold key "port" = true -> asInt val = None)).
Proof.
  unfold storeField. destruct (EqualFold key "ip") eqn:Hip.
  - right. rewrite (EqualFold_other key "ip" "port" eq_refl Hip).
    split; [now destruct (asString val) | discriminate].
  - destruct (EqualFold key "port") eqn:Hport.
    { destruct (asInt val) as [n|] eqn:Hn; [left | right]; simpl; auto. }
    right. split; [|discriminate].
    destruct (EqualFold key "weight"); [now destruct (asInt val)|].
    destruct (EqualFold key "country"); [now destruct (asString val)|reflexivity].
Qed.

Lemma storeField_Weight (e : ARecordValue) (key : string) (val : any) :
  (EqualFold key "weight" = true /\ asInt val = Some (Weight (storeField e (key, val))))
  \/ (Weight (storeField e (key, val)) = Weight e
      /\ (EqualFold key "weight" = true -> asInt val = None)).
Proof.
  unfold storeField. destruct (EqualFold key "ip") eqn:Hip.
  - right. rewrite (EqualFold_other key "ip" "weight" eq_refl Hip).
    split; [now destruct (asString val) | discriminate].
  - destruct (EqualFold key "port") eqn:Hport.
    { right. rewrite (EqualFold_other key "port" "weight" eq_refl Hport).
      split; [now destruct (asInt val) | discriminate]. }
    destruct (EqualFold key "weight") eqn:Hweight.
    { destruct (asInt val) as [n|] eqn:Hn; [left | right]; simpl; auto. }
    right. split; [|discriminate].
    destruct (EqualFold key "country"); [now destruct (asString val)|reflexivity].
Qed.

(** The members of an object, read one after the other into an entry. *)
Lemma fold_storeField_IP (l : list (string * any)) :
  forall e,
    (exists key, In (key, JString (IP (fold_left storeField l e))) l
                 /\ EqualFold key "ip" = true)
    \/ (IP (fold_left storeField l e) = IP e
        /\ forall key val, In (key, val) l -> EqualFold key "ip" = true ->
                           asString val = None).
Proof.
  induction l as [|[key val] rest IH]; intros e; cbn [fold_left In].
  - right. split; [reflexivity | contradiction].
  - destruct (IH (storeField e (key, val))) as [(k & Hin & Hk)|[Heq Hnone]].
    + left. exists k. auto.
    + destruct (storeField_IP e key val) as [(s & -> & Hk & Hs)|[Hsame Hill]].
      * left. exists key. rewrite Heq, Hs. auto.
      * right. split; [congruence|].
        intros k v [Hkv|Hin]; [injection Hkv as <- <-; exact Hill | exact (Hnone k v Hin)].
Qed.

Lemma fold_storeField_Country (l : list (string * any)) :
  forall e,
    (exists key, In (key, JString (Country (fold_left storeField l e))) l
                 /\ EqualFold key "country" = true)
    \/ (Country (fold_left storeField l e) = Country e
        /\ forall key val, In (key, val) l -> EqualFold key "country" = true ->
                           asString val = None).
Proof.
  induction l as [|[key val] rest IH]; intros e; cbn [fold_left In].
  - right. split; [reflexivity | contradiction].
  - destruct (IH (storeField e (key, val))) as [(k & Hin & Hk)|[Heq Hnone]].
    + left. exists k. auto.
    + destruct (storeField_Country e key val) as [(s & -> & Hk & Hs)|[Hsame Hill]].
      * left. exists key. rewrite Heq, Hs. auto.
      * right. split; [congruence|].
        intros k v [Hkv|Hin]; [injection Hkv as <- <-; exact Hill | exact (Hnone k v Hin)].
Qed.

Lemma fold_storeField_Port (l : list (string * any)) :
  forall e,
    (exists key val, In (key, val) l /\ EqualFold key "port" = true
                     /\ asInt val = Some (Port (fold_left storeField l e)))
    \/ (Port (fold_left storeField l e) = Port e
        /\ forall key val, In (key, val) l -> EqualFold key "port" = true ->
                           asInt val = None).
Proof.
  induction l as [|[key val] rest IH]; intros e; cbn [fold_left In].
  - right. split; [reflexivity | contradiction].
  - destruct (IH (storeField e (key, val))) as [(k & v & Hin & Hk)|[Heq Hnone]].
    + left. exists k, v. auto.
    + destruct (storeField_Port e key val) as [[Hk Hn]|[Hsame Hill]].
      * left. exists key, val. rewrite Heq. auto.
      * right. split; [congruence|].
        intros k v [Hkv|Hin]; [injection Hkv as <- <-; exact Hill | exact (Hnone k v Hin)].
Qed.

Lemma fold_storeField_Weight (l : list (string * any)) :
  forall e,
    (exists key val, In (key, val) l /\ EqualFold key "weight" = true
                     /\ asInt val = Some (Weight (fold_left storeField l e)))
    \/ (Weight (fold_left storeField l e) = Weight e
        /\ forall key val, In (key, val) l -> EqualFold key "weight" = true ->
                           asInt val = None).
Proof.
  induction l as [|[key val] rest IH]; intros e; cbn [fold_left In].
  - right. split; [reflexivity | contradiction].
  - destruct (IH (storeField e (key, val))) as [(k & v & Hin & Hk)|[Heq Hnone]].
    + left. exists k, v. auto.
    + destruct (storeField_Weight e key val) as [[Hk Hn]|[Hsame Hill]].
      * left. exists key, val. rewrite Heq. auto.
      * right. split; [congruence|].
        intros k v [Hkv|Hin]; [injection Hkv as <- <-; exact Hill | exact (Hnone k v Hin)].
Qed.

Lemma decodeEntry_entryOf (v : any) : entryOf v (decodeEntry v).
Proof.
  destruct v as [| | | |l|m| | | | | | | |]; try reflexivity.
  unfold entryOf, decodeEntry. repeat split.
  - apply textFieldOf_sortKeys.
    destruct (fold_storeField_IP (sortKeys m) zeroARecordValue) as [H|[Heq H]];
      [now left | right; split; [exact Heq | exact H]].
  - apply intFieldOf_sortKeys.
    destruct (fold_storeField_Port (sortKeys m) zeroARecordValue) as [H|[Heq H]];
      [now left | right; split; [exact Heq | exact H]].
  - apply intFieldOf_sortKeys.
    destruct (fold_storeField_Weight (sortKeys m) zeroARecordValue) as [H|[Heq H]];
      [now left | right; split; [exact Heq | exact H]].
  - apply textFieldOf_sortKeys.
    destruct (fold_storeField_Country (sortKeys m) zeroARecordValue) as [H|[Heq H]];
      [now left | right; split; [exact Heq | exact H]].
Qed.

Lemma decodeEntry_each (l : list any) : Forall2 entryOf l (map decodeEntry l).
Proof.
  induction l as [|v rest IH]; simpl; constructor;
    [apply decodeEntry_entryOf | exact IH].
Qed.

(** An A or AAAA input whose address is in none of the entries is passed
    over: nothing is sent, nothing is reported, and the loop goes on. *)
Lemma deleteOne_no_match (zone : string) (existingRecords : list arDNSRecord)
    (r : libRecord) (deletedRecords : list libRecord) (tr : trace)
    (i : nat) (existing : arDNSRecord) :
  isAddressType (rrOf r).(RR_Type) = true ->
  existingFor zone existingRecords r = Some (i, existing) ->
  hasIP (rrOf r).(RR_Data) (decodeARecordValues existing.(Value)) = false ->
  deleteOne server zone existingRecords r deletedRecords tr
  = (Ok (existingRecords, deletedRecords), tr).
Proof.
  unfold isAddressType, existingFor. intros Hty Hfind Hno.
  unfold deleteOne. rewrite Hfind, Hty, removeIP_spec, Hno. reflexivity.
Qed.


(** *** Inputs without an existing record *)

Lemma matches_key (r r' : arDNSRecord) (searchName rType zone : string) :
  keyOf r = keyOf r' -> matches r searchName rType zone = matches r' searchName rType zone.
Proof. unfold keyOf, matches. intros H. injection H as -> ->. reflexivity. Qed.

Lemma findFrom_keys_None (searchName rType zone : string) (l l' : list arDNSRecord) :
  map keyOf l = map keyOf l' ->
  forall k, findFrom k l searchName rType zone = None ->
            findFrom k l' searchName rType zone = None.
Proof.
  revert l'. induction l as [|r rest IH]; intros [|r' rest'] Hkeys k;
    simpl in Hkeys; try discriminate Hkeys; [reflexivity|].
  injection Hkeys as Hn Ht Hrest. simpl.
  assert (Hk : keyOf r = keyOf r') by (unfold keyOf; congruence).
  rewrite (matches_key searchName rType zone Hk).
  destruct (matches r' searchName rType zone); [discriminate|].
  now apply IH.
Qed.

Lemma findFrom_nth (searchName rType zone : string) (l : list arDNSRecord) :
  forall k i existing,
    findFrom k l searchName rType zone = Some (i, existing) ->
    exists j, i = (k + j)%nat /\ nth_error l j = Some existing.
Proof.
  induction l as [|r rest IH]; intros k i existing; simpl; [discriminate|].
  destruct (matches r searchName rType zone).
  - intros H. injection H as <- <-. exists 0%nat. split; [lia | reflexivity].
  - intros H. destruct (IH _ _ _ H) as (j & -> & Hj).
    exists (S j). split; [lia | exact Hj].
Qed.

Lemma storeAt_keys (x existing : arDNSRecord) (l : list arDNSRecord) :
  keyOf x = keyOf existing ->
  forall j, nth_error l j = Some existing -> map keyOf (storeAt j x l) = map keyOf l.
Proof.
  intros Hk. induction l as [|r rest IH]; intros [|j]; simpl; try discriminate.
  - intros H. injection H as ->. now rewrite Hk.
  - intros H. now rewrite (IH _ H).
Qed.

(** A turn of the loop of [DeleteRecords] changes no name and no type of
    the slice: only a value, through the pointer. *)
Lemma deleteOne_keeps_keys (zone : string) (existingRecords : list arDNSRecord)
    (r : libRecord) (deletedRecords : list libRecord) (tr tr' : trace)
    (st : list arDNSRecord * list libRecord) :
  deleteOne server zone existingRecords r deletedRecords tr = (Ok st, tr') ->
  map keyOf (fst st) = map keyOf existingRecords.
Proof.
  unfold deleteOne.
  destruct (findExistingRecord existingRecords _ _ zone) as [[i existing]|] eqn:Hfind.
  2:{ unfold ret. intros H. injection H as <- _. reflexivity. }
  destruct ((RR_Type (rrOf r) =? "A") || (RR_Type (rrOf r) =? "AAAA")).
  - rewrite removeIP_spec. simpl.
    destruct (hasIP _ _).
    2:{ unfold ret. intros H. injection H as <- _. reflexivity. }
    destruct (List.length _ =? 0)%nat.
    + unfold bind. destruct (deleteRecord server zone (ID existing) tr) as [[a|e|p|] tr1];
        try discriminate.
      destruct (parsed r (toLibDNSRecord a zone) tr1) as [[b|e|p|] tr2]; try discriminate.
      unfold ret. intros H. injection H as <- _. reflexivity.
    + unfold bind.
      match goal with
      | |- context [updateRecord ?s ?z ?id ?rec ?t] =>
          destruct (updateRecord s z id rec t) as [[a|e|p|] tr1]; try discriminate
      end.
      destruct (parsed r (toLibDNSRecord a zone) tr1) as [[b|e|p|] tr2]; try discriminate.
      unfold ret. intros H. injection H as <- _. simpl.
      unfold findExistingRecord in Hfind.
      apply findFrom_nth in Hfind as (j & Hi & Hj). simpl in Hi. subst j.
      apply storeAt_keys with (existing := existing); [reflexivity | exact Hj].
  - unfold bind. destruct (deleteRecord server zone (ID existing) tr) as [[a|e|p|] tr1];
      try discriminate.
    destruct (parsed r (toLibDNSRecord a zone) tr1) as [[b|e|p|] tr2]; try discriminate.
    unfold ret. intros H. injection H as <- _. reflexivity.
Qed.

Lemma existingFor_keys_None (zone : string) (l l' : list arDNSRecord) (r : libRecord) :
  map keyOf l = map keyOf l' ->
  existingFor zone l r = None -> existingFor zone l' r = None.
Proof.
  unfold existingFor, findExistingRecord. intros Hk. now apply findFrom_keys_None.
Qed.

Lemma deleteOne_unmatched (zone : string) (existingRecords : list arDNSRecord)
    (r : libRecord) (deletedRecords : list libRecord) (tr : trace) :
  existingFor zone existingRecords r = None ->
  deleteOne server zone existingRecords r deletedRecords tr
  = (Ok (existingRecords, deletedRecords), tr).
Proof. unfold existingFor, deleteOne. now intros ->. Qed.

Lemma deleteLoop_skips (zone : string) (r : libRecord) (post : list libRecord) :
  forall pre existingRecords deletedRecords tr,
    existingFor zone existingRecords r = None ->
    deleteLoop server zone existingRecords (pre ++ r :: post) deletedRecords tr
    = deleteLoop server zone existingRecords (pre ++ post) deletedRecords tr.
Proof.
  induction pre as [|x pre IH]; intros existingRecords deletedRecords tr Hnone; simpl.
  - unfold bind. now rewrite deleteOne_unmatched by exact Hnone.
  - unfold bind.
    destruct (deleteOne server zone existingRecords x deletedRecords tr)
      as [[st|e|p|] tr1] eqn:E; try reflexivity.
    apply IH. apply existingFor_keys_None with (l := existingRecords); [|exact Hnone].
    symmetry. eapply deleteOne_keeps_keys. exact E.
Qed.

Lemma deleteLoop_all_unmatched (zone : string) (existingRecords : list arDNSRecord) :
  forall records deletedRecords tr,
    (forall r, In r records -> existingFor zone existingRecords r = None) ->
    deleteLoop server zone existingRecords records deletedRecords tr = (Ok deletedRecords, tr).
Proof.
  induction records as [|r rest IH]; intros deletedRecords tr Hall; simpl; [reflexivity|].
  unfold bind. rewrite deleteOne_unmatched by (apply Hall; now left).
  simpl. apply IH. intros r' Hin. apply Hall. now right.
Qed.

(** C9.  Against the listing [existingRecords] of the zone: an input
    without an existing record of its name and type is passed over, that
    is, [DeleteRecords] sends what it sends, returns what it returns and
    fails as it fails without that input; and when no input has an existing
    record (as on a second call for records the first one removed), the
    call sends nothing after the listing and returns no error and no
    record. *)
Theorem DeleteRecords_skips_unmatched (fuel : nat) (zone : string)
    (existingRecords : list arDNSRecord) (tr tr1 : trace) :
  getRecords server fuel zone tr = (Ok existingRecords, tr1) ->
  (forall pre r post,
      existingFor zone existingRecords r = None ->
      DeleteRecords server fuel zone (pre ++ r :: post) tr
      = DeleteRecords server fuel zone (pre ++ post) tr)
  /\ (forall records,
        (forall r, In r records -> existingFor zone existingRecords r = None) ->
        DeleteRecords server fuel zone records tr = (Ok [], tr1)).
Proof.
  intros Hget. split.
  - intros pre r post Hnone. unfold DeleteRecords, bind. rewrite Hget.
    now apply deleteLoop_skips.
  - intros records Hall. unfold DeleteRecords, bind. rewrite Hget.
    now apply deleteLoop_all_unmatched.
Qed.

(** *** Values that are no list of entries *)

Lemma not_array_no_entries (v : any) : isArray v = false -> decodeARecordValues v = [].
Proof. destruct v; simpl; intros H; try reflexivity; discriminate. Qed.

(** An A or AAAA input whose address is in one of the entries is not passed
    over: a turn that ends well reports one record more. *)
Lemma deleteOne_match_reports (zone : string) (existingRecords : list arDNSRecord)
    (r : libRecord) (deletedRecords : list libRecord) (tr tr' : trace)
    (i : nat) (existing : arDNSRecord) (st : list arDNSRecord * list libRecord) :
  isAddressType (rrOf r).(RR_Type) = true ->
  existingFor zone existingRecords r = Some (i, existing) ->
  hasIP (rrOf r).(RR_Data) (decodeARecordValues existing.(Value)) = true ->
  deleteOne server zone existingRecords r deletedRecords tr = (Ok st, tr') ->
  exists added, snd st = (deletedRecords ++ [added])%list.
Proof.
  unfold isAddressType, existingFor. intros Hty Hfind Hyes.
  unfold deleteOne. rewrite Hfind, Hty, removeIP_spec, Hyes. simpl.
  destruct (List.length _ =? 0)%nat; unfold bind.
  - destruct (deleteRecord server zone (ID existing) tr) as [[a|e|p|] tr1];
      try discriminate.
    destruct (parsed r (toLibDNSRecord a zone) tr1) as [[b|e|p|] tr2]; try discriminate.
    unfold ret. intros H. injection H as <- _. now exists b.
  - match goal with
    | |- context [updateRecord ?s ?z ?id ?rec ?t] =>
        destruct (updateRecord s z id rec t) as [[a|e|p|] tr1]; try discriminate
    end.
    destruct (parsed r (toLibDNSRecord a zone) tr1) as [[b|e|p|] tr2]; try discriminate.
    unfold ret. intros H. injection H as <- _. now exists b.
Qed.

(** C10, as amended.  For an A or AAAA input matched to an existing record,
    the errors of the two JSON calls are dropped and the entries decoded
    all the same are used, whether the value decodes cleanly or not: a
    value that is no array has no entry; an array has one entry for each
    of its elements, in their order, read field by field from an element
    that is an object (a field whose members are all ill-typed is left at
    its zero value, the others are read) and with every field zero from an
    element that is none.  The input is passed over (nothing is sent,
    nothing is reported, and there is no error) exactly when none of these
    entries has the IP of the input. *)
Theorem deleteOne_undecodable (zone : string) (existingRecords : list arDNSRecord)
    (r : libRecord) (deletedRecords : list libRecord) (tr : trace)
    (i : nat) (existing : arDNSRecord) :
  isAddressType (rrOf r).(RR_Type) = true ->
  existingFor zone existingRecords r = Some (i, existing) ->
  let entries := decodeARecordValues existing.(Value) in
  (isArray existing.(Value) = false -> entries = [])
  /\ (forall l, existing.(Value) = JArray l -> Forall2 entryOf l entries)
  /\ (deleteOne server zone existingRecords r deletedRecords tr
      = (Ok (existingRecords, deletedRecords), tr)
      <-> hasIP (rrOf r).(RR_Data) entries = false).
Proof.
  intros Hty Hfind entries. split; [|split].
  - apply not_array_no_entries.
  - intros l Hl. unfold entries. rewrite Hl. apply decodeEntry_each.
  - split.
    + intros Hskip. destruct (hasIP _ entries) eqn:Hyes; [|reflexivity].
      destruct (@deleteOne_match_reports zone existingRecords r deletedRecords tr tr
                  i existing _ Hty Hfind Hyes Hskip) as (added & Hsnd).
      simpl in Hsnd. apply (f_equal (@List.length libRecord)) in Hsnd.
      rewrite List.length_app in Hsnd. simpl in Hsnd. lia.
    + intros Hno. now apply deleteOne_no_match with (i := i) (existing := existing).
Qed.

(** *** Overwriting *)

Lemma overwriteLoop_app (zone : string) (existingRecords : list arDNSRecord)
    (post : list libRecord) :
  forall pre tr,
    overwriteLoop server zone existingRecords (pre ++ post) tr
    = bind (overwriteLoop server zone existingRecords pre)
           (fun _ => overwriteLoop server zone existingRecords post) tr.
Proof.
  induction pre as [|r pre IH]; intros tr; simpl; [reflexivity|].
  rewrite bind_assoc. apply bind_ext. intros _ tr1. apply IH.
Qed.

Lemma appendLoop_app (zone : string) (post : list libRecord) :
  forall pre addedRecords tr,
    appendLoop server zone (pre ++ post) addedRecords tr
    = bind (appendLoop server zone pre addedRecords)
           (fun added => appendLoop server zone post added) tr.
Proof.
  induction pre as [|r pre IH]; intros addedRecords tr; simpl; [reflexivity|].
  rewrite bind_assoc. apply bind_ext. intros result tr1.
  rewrite bind_assoc. apply bind_ext. intros libRecord tr2. apply IH.
Qed.

(** When the loop of [SetRecords] goes through, what it has sent is one
    full delete for every input that has an existing record, in the order
    of the inputs. *)
Lemma overwriteLoop_sends_deletes (zone : string) (existingRecords : list arDNSRecord) :
  forall records tr tr',
    overwriteLoop server zone existingRecords records tr = (Ok tt, tr') ->
    tr' = (tr ++ map (deleteRequest zone)
                     (overwriteTargets zone existingRecords records))%list.
Proof.
  induction records as [|r rest IH]; intros tr tr'; simpl.
  - unfold ret. intros H. injection H as <-. now rewrite app_nil_r.
  - unfold bind at 1, overwriteOne, existingFor.
    destruct (findExistingRecord existingRecords _ _ zone) as [[i existing]|].
    + unfold bind at 1.
      destruct (deleteRecord server zone (ID existing) tr) as [[a|e|p|] tr1] eqn:E;
        try discriminate.
      unfold ret. intros H. apply IH in H. apply deleteRecord_ok in E. subst tr1.
      simpl. now rewrite <- app_assoc in H.
    + unfold ret. intros H. now apply IH in H.
Qed.

Lemma do_refused {A : Type} (unmarshal : string -> string + A) (req : request)
    (result : A) (tr : trace) :
  refuses server tr req ->
  exists e, do server unmarshal req result tr = (Err e, (tr ++ [req])%list).
Proof.
  unfold refuses, do. destruct (server (tr ++ [req])%list) as [err|resp].
  - intros _. eexists; reflexivity.
  - intros Hstatus. destruct (decodeEnvelope (Body resp)) as [[msg|respData] unread].
    + eexists; reflexivity.
    + apply Z.leb_le in Hstatus. rewrite Hstatus. eexists; reflexivity.
Qed.

Lemma deleteRecord_refused (zone recordID : string) (tr : trace) :
  newRequestError "DELETE" (URL (deleteRequest zone recordID)) = None ->
  refuses server tr (deleteRequest zone recordID) ->
  exists e, deleteRecord server zone recordID tr
            = (Err e, (tr ++ [deleteRequest zone recordID])%list).
Proof.
  unfold deleteRecord, deleteRequest, newRequest, recordURL, bind. simpl.
  intros -> Href. unfold ret. now apply do_refused.
Qed.

(** What [createRecord] sends does not depend on the record. *)
Lemma createRecord_sends (zone : string) (r : libRecord) (tr tr' : trace)
    (o : outcome arDNSRecord) :
  createRecord server zone r tr = (o, tr') ->
  (newRequestError "POST" (URL (createRequest zone)) <> None /\ tr' = tr /\ isOk o = false)
  \/ (newRequestError "POST" (URL (createRequest zone)) = None
      /\ tr' = (tr ++ [createRequest zone])%list).
Proof.
  unfold createRecord, createRequest, bind, newRequest. simpl.
  destruct (newRequestError "POST" _) as [err|]; simpl.
  - intros H. injection H as <- <-. left. repeat split. discriminate.
  - unfold ret. intros H. right. split; [reflexivity|].
    rewrite <- (do_trace unmarshalRecord _ zeroRecord tr). now rewrite H.
Qed.

Lemma createRecord_refused (zone : string) (r : libRecord) (tr : trace) :
  newRequestError "POST" (URL (createRequest zone)) = None ->
  refuses server tr (createRequest zone) ->
  exists e, createRecord server zone r tr = (Err e, (tr ++ [createRequest zone])%list).
Proof.
  unfold createRecord, createRequest, newRequest, bind. simpl.
  intros -> Href. unfold ret. now apply do_refused.
Qed.

Lemma repeat_snoc {A : Type} (x : A) (n : nat) :
  (x :: repeat x n = repeat x n ++ [x])%list.
Proof. induction n as [|n IH]; simpl; [reflexivity|]. now rewrite <- IH. Qed.

Lemma appendLoop_sends (zone : string) :
  forall records addedRecords tr o tr',
    appendLoop server zone records addedRecords tr = (o, tr') ->
    exists n,
      (n <= List.length records)%nat
      /\ tr' = (tr ++ repeat (createRequest zone) n)%list
      /\ (newRequestError "POST" (URL (createRequest zone)) = None ->
          records <> [] -> (0 < n)%nat)
      /\ forall out, o = Ok out ->
           n = List.length records
           /\ List.length out = (List.length addedRecords + List.length records)%nat.
Proof.
  induction records as [|r rest IH]; intros addedRecords tr o tr' H.
  - simpl in H. injection H as <- <-. exists 0%nat. simpl. rewrite app_nil_r.
    split; [lia|]. split; [reflexivity|]. split; [intros _ Hne; now elim Hne|].
    intros out Ho. injection Ho as <-. lia.
  - cbn [appendLoop] in H. unfold bind at 1 in H.
    destruct (createRecord server zone r tr) as [[result|e|p|] tr1] eqn:Ec.
    + destruct (createRecord_sends _ _ _ Ec) as [(_ & _ & Hno)|[_ Htr1]]; [discriminate|].
      unfold bind at 1 in H.
      pose proof (parsed_quiet r (toLibDNSRecord result zone) tr1) as Hq.
      destruct (parsed r (toLibDNSRecord result zone) tr1) as [[libRecord|e|p|] tr2];
        simpl in Hq; subst tr2.
      * apply IH in H as (n & Hn & Htr & _ & Hok). exists (S n). subst tr1 tr'.
        cbn [repeat List.length]. rewrite <- app_assoc.
        split; [lia|]. split; [reflexivity|]. split; [intros; lia|].
        intros out Ho. destruct (Hok out Ho) as [-> ->].
        rewrite List.length_app. simpl. lia.
      * injection H as <- <-. exists 1%nat. subst tr1. simpl.
        split; [lia|]. split; [reflexivity|]. split; [intros; lia|]. discriminate.
      * injection H as <- <-. exists 1%nat. subst tr1. simpl.
        split; [lia|]. split; [reflexivity|]. split; [intros; lia|]. discriminate.
      * injection H as <- <-. exists 1%nat. subst tr1. simpl.
        split; [lia|]. split; [reflexivity|]. split; [intros; lia|]. discriminate.
    + injection H as <- <-.
      destruct (createRecord_sends _ _ _ Ec) as [(Hbad & -> & _)|[_ ->]].
      * exists 0%nat. simpl. rewrite app_nil_r.
        split; [lia|]. split; [reflexivity|]. split; [intros Hc; now elim Hbad|].
        discriminate.
      * exists 1%nat. simpl.
        split; [lia|]. split; [reflexivity|]. split; [intros; lia|]. discriminate.
    + injection H as <- <-.
      destruct (createRecord_sends _ _ _ Ec) as [(Hbad & -> & _)|[_ ->]].
      * exists 0%nat. simpl. rewrite app_nil_r.
        split; [lia|]. split; [reflexivity|]. split; [intros Hc; now elim Hbad|].
        discriminate.
      * exists 1%nat. simpl.
        split; [lia|]. split; [reflexivity|]. split; [intros; lia|]. discriminate.
    + injection H as <- <-.
      destruct (createRecord_sends _ _ _ Ec) as [(Hbad & -> & _)|[_ ->]].
      * exists 0%nat. simpl. rewrite app_nil_r.
        split; [lia|]. split; [reflexivity|]. split; [intros Hc; now elim Hbad|].
        discriminate.
      * exists 1%nat. simpl.
        split; [lia|]. split; [reflexivity|]. split; [intros; lia|]. discriminate.
Qed.

(** C4 fails on the code in its last part.  What the code does, after the
    listing [existingRecords] of the zone: when the loop over the inputs
    goes through, it has sent one full delete for every input that has an
    existing record of its name and type, in the order of the inputs, and
    nothing else; then [AppendRecords] sends one creation for each input of
    a first part of the inputs (for one input at least, and for all of them
    when the call returns records), and every creation is the same request,
    a POST whose body is the empty JSON object: no name, type, TTL or value
    of an input reaches the peer.  A delete that the peer fails ends the
    call with an error, and so does a creation that the peer fails;
    nothing is sent after either.  (An error is returned with the nil
    slice.) *)
Theorem SetRecords_overwrites (fuel : nat) (zone : string) (records : list libRecord)
    (existingRecords : list arDNSRecord) (tr tr1 : trace) :
  getRecords server fuel zone tr = (Ok existingRecords, tr1) ->
  (forall tr2,
      overwriteLoop server zone existingRecords records tr1 = (Ok tt, tr2) ->
      tr2 = (tr1 ++ map (deleteRequest zone)
                        (overwriteTargets zone existingRecords records))%list
      /\ exists n,
           (n <= List.length records)%nat
           /\ snd (SetRecords server fuel zone records tr)
              = (tr2 ++ repeat (createRequest zone) n)%list
           /\ (newRequestError "POST" (URL (createRequest zone)) = None ->
               records <> [] -> (0 < n)%nat)
           /\ forall out,
                fst (SetRecords server fuel zone records tr) = Ok out ->
                n = List.length records /\ List.length out = List.length records)
  /\ (forall pre r post i existing tr2,
        records = (pre ++ r :: post)%list ->
        overwriteLoop server zone existingRecords pre tr1 = (Ok tt, tr2) ->
        existingFor zone existingRecords r = Some (i, existing) ->
        newRequestError "DELETE" (URL (deleteRequest zone existing.(ID))) = None ->
        refuses server tr2 (deleteRequest zone existing.(ID)) ->
        exists e,
          SetRecords server fuel zone records tr
          = (Err e, (tr2 ++ [deleteRequest zone existing.(ID)])%list))
  /\ (forall pre r post addedRecords tr2 tr3,
        records = (pre ++ r :: post)%list ->
        overwriteLoop server zone existingRecords records tr1 = (Ok tt, tr2) ->
        appendLoop server zone pre [] tr2 = (Ok addedRecords, tr3) ->
        newRequestError "POST" (URL (createRequest zone)) = None ->
        refuses server tr3 (createRequest zone) ->
        tr3 = (tr2 ++ repeat (createRequest zone) (List.length pre))%list
        /\ exists e,
             SetRecords server fuel zone records tr
             = (Err e, (tr3 ++ [createRequest zone])%list)).
Proof.
  intros Hget. split; [|split].
  - intros tr2 Hloop. split.
    + now apply overwriteLoop_sends_deletes.
    + assert (Hrun : SetRecords server fuel zone records tr
                     = appendLoop server zone records [] tr2).
      { unfold SetRecords. unfold bind at 1. rewrite Hget.
        unfold bind at 1. now rewrite Hloop. }
      rewrite Hrun.
      destruct (appendLoop server zone records [] tr2) as [o tr3] eqn:Ea.
      apply appendLoop_sends in Ea as (n & Hn & Htr & Hpos & Hok).
      exists n. cbn [fst snd]. split; [exact Hn|]. split; [exact Htr|].
      split; [exact Hpos|]. intros out Ho. exact (Hok out Ho).
  - intros pre r post i existing tr2 -> Hpre Hfind Hreq Href.
    destruct (deleteRecord_refused zone (ID existing) tr2 Hreq Href) as (e & Hdel).
    exists e.
    unfold SetRecords. unfold bind at 1. rewrite Hget.
    unfold bind at 1. rewrite overwriteLoop_app.
    unfold bind at 1. rewrite Hpre. simpl.
    unfold bind at 1, overwriteOne. unfold existingFor in Hfind. rewrite Hfind.
    unfold bind at 1. now rewrite Hdel.
  - intros pre r post addedRecords tr2 tr3 -> Hloop Hpre Hreq Href.
    destruct (createRecord_refused zone r tr3 Hreq Href) as (e & Hcreate).
    split.
    + apply appendLoop_sends in Hpre as (n & _ & Htr & _ & Hok).
      destruct (Hok addedRecords eq_refl) as [-> _]. exact Htr.
    + exists e.
      unfold SetRecords. unfold bind at 1. rewrite Hget.
      unfold bind at 1. rewrite Hloop.
      unfold AppendRecords. rewrite appendLoop_app.
      unfold bind at 1. rewrite Hpre. simpl.
      unfold bind at 1. now rewrite Hcreate.
Qed.

End FacadeProperties.

(** *** The facade against the scripted peer *)


(** Deleting the last address of a record sends the full delete. *)
Example delete_last_address :
  snd (@deleteOne Scripted.zoneLib Scripted.zoneServer "example.com"
         [setValue Scripted.wwwRecord (VARecords [mkARecordValue "2.2.2.2" 0 0 ""])]
         (Generic (mkRR "www" 0 "A" "2.2.2.2")) [] [])
  = [deleteRequest "example.com" "r1"].
Proof. reflexivity. Qed.

(** C9 at the example zone: deleting a record that is not there sends
    nothing after the listing and is no error. *)
Lemma DeleteRecords_skips_witness :
  @DeleteRecords Scripted.zoneLib Scripted.zoneServer 3 "example.com"
     [Generic (mkRR "ftp" 0 "A" "1.1.1.1")] []
  = (Ok [], [Scripted.listRequest]).
Proof.
  destruct (@DeleteRecords_skips_unmatched Scripted.zoneLib Scripted.zoneServer 3
              "example.com" [Scripted.wwwRecord; Scripted.mailRecord]
              [] [Scripted.listRequest] eq_refl) as [_ Hall].
  apply Hall. intros r [<-|[]]. reflexivity.
Defined.

(** The amended C10 at the record whose only entry has a string for port,
    for an address that is not in it: the entry is read with its IP and a
    zero port, and the input is passed over. *)
Lemma deleteOne_undecodable_witness :
  Forall2 entryOf [JObject [("ip", JString "1.1.1.1"); ("port", JString "80")]]
                  [mkARecordValue "1.1.1.1" 0 0 ""]
  /\ @deleteOne Scripted.zoneLib Scripted.noServer "example.com" [Scripted.portRecord]
        (Address "api" 120000000000 (Addr4 151587081)) [] []
     = (Ok ([Scripted.portRecord], []), []).
Proof.
  destruct (@deleteOne_undecodable Scripted.zoneLib Scripted.noServer "example.com"
              [Scripted.portRecord]
              (Address "api" 120000000000 (Addr4 151587081)) [] []
              0%nat Scripted.portRecord eq_refl eq_refl) as (_ & Hentries & Hskip).
  split.
  - exact (Hentries _ eq_refl).
  - apply Hskip. reflexivity.
Defined.

(** C10 fails as stated: the value of [portRecord] does not decode cleanly
    (its port is a string), yet its entry is decoded with the IP set, the
    input is not passed over, and the full delete of the record is sent
    (here to a peer that cannot be reached, so that the call fails). *)
Lemma undecodable_value_is_not_skipped :
  decodesCleanly Scripted.portRecord.(Value) = false
  /\ decodeARecordValues Scripted.portRecord.(Value) = [mkARecordValue "1.1.1.1" 0 0 ""]
  /\ @deleteOne Scripted.zoneLib Scripted.noServer "example.com" [Scripted.portRecord]
        (Address "api" 120000000000 Scripted.oneOneOneOne) [] []
     = (Err (ErrHTTP "connection refused"), [deleteRequest "example.com" "r4"]).
Proof. repeat split. Qed.

(** C4's theorem at the example zone, for a new text at "mail": the TXT
    record at "mail" is deleted, and what is then created carries nothing
    of the input. *)
Lemma SetRecords_overwrites_witness :
  snd (@SetRecords Scripted.zoneLib Scripted.zoneServer 3 "example.com"
         [TXT "mail" 120000000000 "hello"] [])
  = [Scripted.listRequest;
     mkRequest "DELETE" (apiBaseURL ++ "/domains/example.com/dns-records/r2") NoBody;
     mkRequest "POST" (apiBaseURL ++ "/domains/example.com/dns-records") EmptyObject].
Proof.
  destruct (@SetRecords_overwrites Scripted.zoneLib Scripted.zoneServer 3 "example.com"
              [TXT "mail" 120000000000 "hello"]
              [Scripted.wwwRecord; Scripted.mailRecord]
              [] [Scripted.listRequest] eq_refl) as [Hthrough _].
  destruct (Hthrough [Scripted.listRequest; deleteRequest "example.com" "r2"] eq_refl)
    as [_ (n & Hn & Htr & Hpos & _)].
  specialize (Hpos eq_refl ltac:(discriminate)).
  destruct n as [|[|n]]; [inversion Hpos | exact Htr | simpl in Hn; lia].
Defined.

(** The peer has no answer for a creation: the call ends with that error,
    the record at "mail" deleted. *)
Example SetRecords_example_zone :
  @SetRecords Scripted.zoneLib Scripted.zoneServer 3 "example.com"
     [TXT "mail" 120000000000 "hello"] []
  = (Err (ErrHTTP "connection refused"),
     [Scripted.listRequest; deleteRequest "example.com" "r2";
      mkRequest "POST" (apiBaseURL ++ "/domains/example.com/dns-records") EmptyObject]).
Proof. reflexivity. Qed.

(* ===================================================================== *)
(** * Further properties of the code *)
(* ===================================================================== *)

(** ** Transport client: [do] and the page loop *)

Section TransportFurther.
Context {lib : Lib}.
Variable server : Server.

(** X1.  When [do] returns without error, the peer answered, the body
    decoded as an envelope, the status was under 400, the envelope listed
    no error, and the value returned is what [result] pointed to when the
    envelope carries no data, and the decoded data otherwise. *)
Theorem do_ok_inversion {A : Type} (unmarshal : string -> string + A) (req : request)
    (result a : A) (tr tr' : trace) :
  do server unmarshal req result tr = (Ok a, tr') ->
  exists resp respData unread,
    server (tr ++ [req])%list = inr resp
    /\ decodeEnvelope resp.(Body) = (inr respData, unread)
    /\ (resp.(StatusCode) < 400)%Z
    /\ respData.(Errors) = []
    /\ (if respData.(Data) =? "" then a = result
        else unmarshal respData.(Data) = inr a)
    /\ tr' = (tr ++ [req])%list.
Proof.
  unfold do.
  destruct (server (tr ++ [req])%list) as [err|resp]; [discriminate|].
  destruct (decodeEnvelope (Body resp)) as [[msg|respData] unread] eqn:Edec;
    [discriminate|].
  destruct (400 <=? StatusCode resp)%Z eqn:Est; [discriminate|].
  destruct (Errors respData) as [|e es] eqn:Eerr; [|discriminate]. simpl.
  destruct (Data respData) as [|c d] eqn:Edata; simpl.
  - intros H. injection H as <- <-.
    exists resp, respData, unread. rewrite Eerr, Edata.
    apply Z.leb_gt in Est. repeat split; auto.
  - destruct (unmarshal (String c d)) as [err|v] eqn:Eun; [discriminate|].
    intros H. injection H as <- <-.
    exists resp, respData, unread. rewrite Eerr, Edata.
    apply Z.leb_gt in Est. repeat split; auto.
Qed.

Lemma getRecordsFrom_step (fuel : nat) (zone : string) (page : Z)
    (records : list arDNSRecord) (tr tr' : trace) (p : paginatedResponse) :
  newRequestError "GET" (apiBaseURL ++ pagePath zone page) = None ->
  do server unmarshalPage (pageRequest zone page) zeroPage tr = (Ok p, tr') ->
  getRecordsFrom server (S fuel) zone page records tr
  = if lastPage p then (Ok (records ++ Page_Data p)%list, tr')
    else getRecordsFrom server fuel zone (wrap64 (page + 1))
                        (records ++ Page_Data p)%list tr'.
Proof.
  intros Hreq Hdo. cbn [getRecordsFrom].
  fold (pagePath zone page). unfold bind at 1, newRequest. rewrite Hreq.
  unfold ret. cbn [marshalPayload]. fold (pageRequest zone page). unfold bind at 1. rewrite Hdo.
  fold (lastPage p). now destruct (lastPage p).
Qed.

Lemma getRecordsFrom_pages (zone : string) :
  forall ps page records tr fuel,
    served server zone page tr ps ->
    (List.length ps <= fuel)%nat ->
    getRecordsFrom server fuel zone page records tr
    = (Ok (records ++ concat (map Page_Data ps))%list,
       (tr ++ map (pageRequest zone) (pagesFrom page (List.length ps)))%list).
Proof.
  induction ps as [|p rest IH]; intros page records tr fuel Hserved Hfuel;
    [contradiction|].
  destruct fuel as [|fuel]; [simpl in Hfuel; lia|].
  destruct Hserved as (Hreq & Hdo & Hrest).
  rewrite (@getRecordsFrom_step fuel zone page records tr _ p Hreq Hdo).
  destruct rest as [|q rest].
  - rewrite Hrest. simpl. now rewrite app_nil_r.
  - destruct Hrest as [Hlast Hrest]. rewrite Hlast.
    rewrite (IH _ _ _ fuel Hrest) by (simpl in *; lia).
    cbn [map concat pagesFrom List.length]. now rewrite <- !app_assoc.
Qed.

(** X2.  When the peer serves the listing in the pages [ps] and the fuel
    covers them, [getRecords] returns the records of the pages, in the
    order of the pages, and has sent one request for each page and none
    after the last. *)
Theorem getRecords_all_pages (fuel : nat) (zone : string) (tr : trace)
    (ps : list paginatedResponse) :
  served server zone 1 tr ps ->
  (List.length ps <= fuel)%nat ->
  getRecords server fuel zone tr
  = (Ok (concat (map Page_Data ps)),
     (tr ++ map (pageRequest zone) (pagesFrom 1 (List.length ps)))%list).
Proof.
  intros Hserved Hfuel. unfold getRecords.
  now rewrite (@getRecordsFrom_pages zone ps 1 [] tr fuel Hserved Hfuel).
Qed.

Lemma do_returns {A : Type} (unmarshal : string -> string + A) (req : request)
    (result : A) (tr : trace) :
  match fst (do server unmarshal req result tr) with
  | Ok _ | Err _ => True
  | _ => False
  end.
Proof.
  unfold do. destruct (server (tr ++ [req])%list) as [err|resp]; [exact I|].
  destruct (decodeEnvelope (Body resp)) as [[msg|respData] unread]; [exact I|].
  destruct (400 <=? StatusCode resp)%Z; [exact I|].
  destruct (0 <? List.length (Errors respData))%nat; [exact I|].
  destruct (0 <? String.length (Data respData))%nat; [|exact I].
  now destruct (unmarshal (Data respData)).
Qed.

Lemma getRecordsFrom_requests (zone : string) :
  forall fuel page records tr o tr',
    getRecordsFrom server fuel zone page records tr = (o, tr') ->
    exists n,
      (n <= fuel)%nat
      /\ tr' = (tr ++ map (pageRequest zone) (pagesFrom page n))%list
      /\ (o = OutOfFuel -> n = fuel)
      /\ (isOk o = true -> (0 < n)%nat).
Proof.
  induction fuel as [|fuel IH]; intros page records tr o tr' H.
  - injection H as <- <-. exists 0%nat. simpl. rewrite app_nil_r.
    repeat split; auto. discriminate.
  - cbn [getRecordsFrom] in H. fold (pagePath zone page) in H.
    unfold bind at 1, newRequest in H.
    destruct (newRequestError "GET" (apiBaseURL ++ pagePath zone page)) as [err|].
    + injection H as <- <-. exists 0%nat. simpl. rewrite app_nil_r.
      split; [lia|]. split; [reflexivity|]. split; discriminate.
    + unfold ret in H. cbn [marshalPayload] in H.
      fold (pageRequest zone page) in H. unfold bind at 1 in H.
      pose proof (do_trace server unmarshalPage (pageRequest zone page) zeroPage tr) as Htr.
      pose proof (do_returns unmarshalPage (pageRequest zone page) zeroPage tr) as Hret.
      destruct (do server unmarshalPage (pageRequest zone page) zeroPage tr)
        as [[p|e|pn|] tr1]; simpl in Htr, Hret; subst tr1; try contradiction.
      2:{ injection H as <- <-. exists 1%nat. simpl.
          split; [lia|]. split; [reflexivity|]. split; discriminate. }
      fold (lastPage p) in H. destruct (lastPage p).
      * injection H as <- <-. exists 1%nat. simpl.
        split; [lia|]. split; [reflexivity|]. split; [discriminate | intros _; lia].
      * apply IH in H as (n & Hn & Htrace & Hfuel & Hok).
        exists (S n). rewrite Htrace. cbn [pagesFrom map].
        rewrite <- app_assoc. repeat split; auto; try lia.
Qed.

(** X3.  Whatever the peer answers, what [getRecords] sends is the requests
    for consecutive pages from page 1 on, at most one per unit of fuel;
    it runs out of fuel only after a request for every unit, and it
    returns records only after one request at least. *)
Theorem getRecords_requests (fuel : nat) (zone : string) (tr : trace) :
  exists n,
    (n <= fuel)%nat
    /\ snd (getRecords server fuel zone tr)
       = (tr ++ map (pageRequest zone) (pagesFrom 1 n))%list
    /\ (fst (getRecords server fuel zone tr) = OutOfFuel -> n = fuel)
    /\ (isOk (fst (getRecords server fuel zone tr)) = true -> (0 < n)%nat).
Proof.
  unfold getRecords.
  destruct (getRecordsFrom server fuel zone 1 [] tr) as [o tr'] eqn:E.
  simpl. now apply getRecordsFrom_requests with (records := []).
Qed.

End TransportFurther.

(** X1 at the listing of the example zone. *)
Lemma do_ok_inversion_witness :
  exists resp respData unread,
    Scripted.zoneServer ([] ++ [Scripted.listRequest])%list = inr resp
    /\ @decodeEnvelope Scripted.zoneLib resp.(Body) = (inr respData, unread)
    /\ (resp.(StatusCode) < 400)%Z
    /\ respData.(Errors) = []
    /\ (if respData.(Data) =? "" then
          mkPage [Scripted.wwwRecord; Scripted.mailRecord] None 1 1 = zeroPage
        else @unmarshalPage Scripted.zoneLib respData.(Data)
             = inr (mkPage [Scripted.wwwRecord; Scripted.mailRecord] None 1 1))
    /\ [Scripted.listRequest] = ([] ++ [Scripted.listRequest])%list.
Proof.
  apply (@do_ok_inversion Scripted.zoneLib Scripted.zoneServer paginatedResponse
           (@unmarshalPage Scripted.zoneLib) Scripted.listRequest zeroPage
           (mkPage [Scripted.wwwRecord; Scripted.mailRecord] None 1 1)
           [] [Scripted.listRequest]).
  reflexivity.
Defined.

(** X2 at the zone listed in three pages. *)
Lemma getRecords_all_pages_witness :
  @getRecords ScriptedPages.pagedLib ScriptedPages.pagedServer 5 "example.com" []
  = (Ok [Scripted.wwwRecord; Scripted.mailRecord; Scripted.objectRecord],
     [pageRequest "example.com" 1; pageRequest "example.com" 2;
      pageRequest "example.com" 3]).
Proof.
  apply (@getRecords_all_pages ScriptedPages.pagedLib ScriptedPages.pagedServer 5
           "example.com" []
           [ScriptedPages.firstPage; ScriptedPages.secondPage; ScriptedPages.thirdPage]).
  - repeat split.
  - simpl. lia.
Defined.

(** ** TXT quote helpers and record codec *)

(** X4.  [unwrapContent] takes off one layer of quotes and no more: a text
    inside a pair of quotes unwraps to the text between them, whatever that
    is; and a lone quote, which is its own first and last byte, unwraps to
    the empty text. *)
Theorem unwrap_takes_one_layer (body : string) :
  unwrapContent (String dquote (body ++ str1 dquote)) = body
  /\ unwrapContent (str1 dquote) = "".
Proof.
  split; [|reflexivity].
  unfold unwrapContent. rewrite HasPrefix_char, Ascii.eqb_refl.
  change (String dquote (body ++ str1 dquote))
    with ((String dquote body) ++ str1 dquote).
  rewrite HasSuffix_app, TrimSuffix_app. simpl andb. cbv iota.
  apply TrimPrefix_char.
Qed.

Lemma wrap64_in_range (z : Z) : int64 (wrap64 z).
Proof.
  unfold int64, wrap64.
  pose proof (Z.mod_pos_bound (z + 2 ^ 63) (2 ^ 64) ltac:(lia)). lia.
Qed.

(** X5.  The TTL of a provider record, in seconds, comes back from the
    generic record ([time.Duration(r.TTL) * time.Second], then
    [int(rr.TTL.Seconds())]) exactly when it is at most 9223372036 in
    absolute value; a larger one overflows the duration and comes back as
    another number. *)
Theorem provider_ttl_round_trip (n : Z) :
  int64 n ->
  (durationSeconds (wrap64 (n * Second)) = n <-> (-9223372036 <= n <= 9223372036)%Z).
Proof.
  intros Hn. split.
  - intros <-. apply durationSeconds_bound, wrap64_in_range.
  - intros Hb. rewrite wrap64_small by (unfold int64, Second; lia).
    now apply durationSeconds_whole.
Qed.

(** X5 at a TTL of two minutes. *)
Lemma provider_ttl_round_trip_witness : durationSeconds (wrap64 (120 * Second)) = 120%Z.
Proof.
  apply (proj2 (@provider_ttl_round_trip 120 ltac:(unfold int64; lia))). lia.
Defined.

Section CodecFurther.
Context {lib : Lib}.

(** X6.  What [toLibDNSRecord] makes of a provider record that
    [arvancloudRecord] built: for a [libdns.RR] (a variant outside the
    switch, whose value stays nil) it panics, whatever the type; for an
    address it is the address parsed back from its text, or the error of
    the parser; for every other variant of the switch it is a record. *)
Theorem adapter_built_records_translate (zone : string) (r : libRecord) :
  match r with
  | Generic _ =>
      toLibDNSRecord (arvancloudRecord r) zone = Panicked (InterfaceConversion Nil)
  | Address name ttl ip =>
      toLibDNSRecord (arvancloudRecord r) zone
      = match ParseAddr (AddrString ip) with
        | inl err => Err (ErrInvalidIP (AddrString ip) err)
        | inr addr =>
            Ok (Address (RelativeName name zone) (wrap64 (durationSeconds ttl * Second)) addr)
        end
  | _ => isOk (toLibDNSRecord (arvancloudRecord r) zone) = true
  end.
Proof.
  destruct r as [name ttl ip | name ttl flags tag value | name ttl target
                | name ttl pref target | name ttl target
                | service transport name ttl prio weight port target
                | name ttl text | rr];
    try reflexivity.
  - unfold toLibDNSRecord, arvancloudRecord; simpl.
    destruct (Is6 ip); simpl; now destruct (ParseAddr (AddrString ip)).
  - unfold toLibDNSRecord, arvancloudRecord; simpl.
    destruct (RR_Type rr =? "A"), (RR_Type rr =? "AAAA"), (RR_Type rr =? "CAA"),
      (RR_Type rr =? "CNAME"), (RR_Type rr =? "MX"), (RR_Type rr =? "NS"),
      (RR_Type rr =? "SRV"), (RR_Type rr =? "TXT"); reflexivity.
Qed.

(** X7.  A provider record whose value is as [encoding/json] left it
    translates, if at all, through the fallback alone: its type is none of
    the known ones, its value is a JSON string and the record is what
    [libdns] parses; and an error, if any, is the error of that parser,
    never the error of an IP address. *)
Theorem decoded_records_translate_by_fallback (r : arDNSRecord) (zone : string) :
  decodedForm r.(Value) = true ->
  (forall rec, toLibDNSRecord r zone = Ok rec ->
     knownType r.(Type_) = false
     /\ exists s, r.(Value) = JString s
                  /\ rrParse (mkRR (RelativeName r.(Name) zone) (wrap64 (r.(TTL) * Second))
                                   r.(Type_) (fallbackData s)) = inr rec)
  /\ (forall e, toLibDNSRecord r zone = Err e -> exists msg, e = ErrRRParse msg).
Proof.
  intros Hv.
  destruct (knownType (Type_ r)) eqn:Hk.
  - rewrite (type_assertion_fails r zone Hk Hv). split; intros ? H; discriminate H.
  - assert (Hfall : toLibDNSRecord r zone
                    = match Value r with
                      | JString s =>
                          match rrParse (mkRR (RelativeName (Name r) zone)
                                              (wrap64 (TTL r * Second)) (Type_ r)
                                              (fallbackData s)) with
                          | inl err => Err (ErrRRParse err)
                          | inr rec => Ok rec
                          end
                      | other => Panicked (InterfaceConversion other)
                      end).
    { unfold knownType in Hk. simpl in Hk. unfold toLibDNSRecord.
      destruct (Type_ r =? "A"), (Type_ r =? "AAAA"), (Type_ r =? "CAA"),
        (Type_ r =? "CNAME"), (Type_ r =? "MX"), (Type_ r =? "NS"),
        (Type_ r =? "SRV"), (Type_ r =? "TXT"); simpl in Hk; try discriminate Hk.
      reflexivity. }
    rewrite Hfall.
    destruct (Value r) as [| | |s| | | | | | | | | |]; simpl in Hv;
      try discriminate Hv;
      try (split; intros ? H; discriminate H).
    destruct (rrParse _) as [err|rec0] eqn:Ep; split; intros x H;
      try discriminate H.
    + injection H as <-. now exists err.
    + injection H as <-. split; [reflexivity|]. now exists s.
Qed.

(** X8.  For a record of type A or AAAA whose value is an [ARecordValue]
    with an IP that parses, the generic record is the address, and its
    provider form has the type of the family of the address, AAAA for
    IPv6 and A otherwise, whatever the type of the record was: the type
    is not checked against the address. *)
Theorem address_family_decides_type (r : arDNSRecord) (zone : string)
    (v : ARecordValue) (addr : Addr) :
  isAddressType r.(Type_) = true ->
  r.(Value) = VARecord v ->
  ParseAddr v.(IP) = inr addr ->
  toLibDNSRecord r zone
    = Ok (Address (RelativeName r.(Name) zone) (wrap64 (r.(TTL) * Second)) addr)
  /\ (arvancloudRecord
        (Address (RelativeName r.(Name) zone) (wrap64 (r.(TTL) * Second)) addr)).(Type_)
     = (if Is6 addr then "AAAA" else "A").
Proof.
  unfold isAddressType. intros Hty Hval Hparse. split.
  - unfold toLibDNSRecord. rewrite Hty, Hval, Hparse. reflexivity.
  - unfold arvancloudRecord. simpl. now destruct (Is6 addr).
Qed.

End CodecFurther.

(** X7 at a PTR record whose value the provider gives as a string. *)
Lemma decoded_records_witness :
  knownType (Type_ (mkRecord "r5" "PTR" "4" (JString "{}") 60 false false "" None)) = false.
Proof.
  destruct (@decoded_records_translate_by_fallback Scripted.zoneLib
              (mkRecord "r5" "PTR" "4" (JString "{}") 60 false false "" None)
              "example.com" eq_refl) as [Hok _].
  destruct (Hok (Generic (mkRR "4" 60000000000 "PTR" "{}")) eq_refl) as [Hk _].
  exact Hk.
Defined.

(** X8 at a record tagged AAAA that holds an IPv4 address. *)
Lemma address_family_witness :
  (@arvancloudRecord Scripted.zoneLib
     (Address (RelativeName "www" "example.com") (wrap64 (120 * Second))
              Scripted.oneOneOneOne)).(Type_)
  = "A".
Proof.
  destruct (@address_family_decides_type Scripted.zoneLib
              (mkRecord "r6" "AAAA" "www" (VARecord (mkARecordValue "1.1.1.1" 0 0 ""))
                        120 false false "" None)
              "example.com" (mkARecordValue "1.1.1.1" 0 0 "") Scripted.oneOneOneOne
              eq_refl eq_refl eq_refl) as [_ Hty].
  exact Hty.
Defined.

(** ** Record locator *)

Lemma findFrom_first (searchName rType zone : string) (l : list arDNSRecord) :
  forall k i r,
    findFrom k l searchName rType zone = Some (i, r) ->
    exists j,
      i = (k + j)%nat
      /\ nth_error l j = Some r
      /\ matches r searchName rType zone = true
      /\ forall j' r', (j' < j)%nat -> nth_error l j' = Some r' ->
                       matches r' searchName rType zone = false.
Proof.
  induction l as [|x rest IH]; intros k i r; simpl; [discriminate|].
  destruct (matches x searchName rType zone) eqn:Ex.
  - intros H. injection H as <- <-. exists 0%nat.
    repeat split; auto; try lia; intros; lia.
  - intros H. destruct (IH _ _ _ H) as (j & -> & Hj & Hm & Hfirst).
    exists (S j). repeat split; auto; try lia.
    intros [|j'] r' Hlt Hnth; simpl in Hnth.
    + injection Hnth as <-. exact Ex.
    + apply (Hfirst j' r'); [lia | exact Hnth].
Qed.

(** X9.  The record [findExistingRecord] returns is the record at the
    index it returns, it matches the search, and no record before it in the
    slice does: it is the first match. *)
Theorem findExistingRecord_first_match (records : list arDNSRecord)
    (name rType zone : string) (i : nat) (r : arDNSRecord) :
  findExistingRecord records name rType zone = Some (i, r) ->
  nth_error records i = Some r
  /\ matches r (AbsoluteName name zone) rType zone = true
  /\ forall j r', (j < i)%nat -> nth_error records j = Some r' ->
                  matches r' (AbsoluteName name zone) rType zone = false.
Proof.
  unfold findExistingRecord. intros H.
  apply findFrom_first in H as (j & Hi & Hj & Hm & Hfirst).
  simpl in Hi. subst j. auto.
Qed.

Lemma findFrom_none (searchName rType zone : string) (l : list arDNSRecord) :
  forall k,
    findFrom k l searchName rType zone = None
    <-> forall r, In r l -> matches r searchName rType zone = false.
Proof.
  induction l as [|x rest IH]; intros k; simpl.
  - split; [intros _ r [] | reflexivity].
  - destruct (matches x searchName rType zone) eqn:Ex.
    + split; [discriminate|]. intros H. rewrite (H x (or_introl eq_refl)) in Ex.
      discriminate.
    + rewrite IH. split.
      * intros H r [<-|Hin]; auto.
      * intros H r Hin. apply H. now right.
Qed.

(** X10.  [findExistingRecord] returns nil exactly when no record of the
    slice matches the search; in particular on an empty slice. *)
Theorem findExistingRecord_none_iff (records : list arDNSRecord) (name rType zone : string) :
  findExistingRecord records name rType zone = None
  <-> forall r, In r records -> matches r (AbsoluteName name zone) rType zone = false.
Proof. apply findFrom_none. Qed.

Lemma append_assoc (a b c : string) : ((a ++ b) ++ c)%string = (a ++ (b ++ c))%string.
Proof. induction a as [|x a IH]; simpl; [reflexivity | now rewrite IH]. Qed.

Lemma EqualFold_refl (s : string) : EqualFold s s = true.
Proof. induction s as [|c s IH]; simpl; [reflexivity | now rewrite Ascii.eqb_refl]. Qed.

Lemma HasPrefix_app (z b : string) : HasPrefix (z ++ b) z = true.
Proof.
  unfold HasPrefix. induction z as [|c z IH]; simpl.
  - now destruct b.
  - destruct (ascii_dec c c) as [_|Hne]; [exact IH | congruence].
Qed.

Lemma Contains_prefix (s z : string) : HasPrefix s z = true -> Contains s z = true.
Proof. destruct s; cbn [Contains]; now intros ->. Qed.

Lemma Contains_middle (a z b : string) : Contains (a ++ z ++ b) z = true.
Proof.
  induction a as [|c a IH].
  - cbn [append]. apply Contains_prefix. apply HasPrefix_app.
  - cbn [append Contains]. rewrite IH. apply orb_true_r.
Qed.

Lemma append_empty_r (s : string) : (s ++ "")%string = s.
Proof. induction s as [|c s IH]; simpl; [reflexivity | now rewrite IH]. Qed.

Lemma Contains_end (a z : string) : Contains (a ++ z) z = true.
Proof. rewrite <- (append_empty_r z) at 1. apply Contains_middle. Qed.

Lemma HasSuffix_dot_app (a z : string) :
  z <> "" -> HasSuffix (a ++ z) "." = HasSuffix z ".".
Proof.
  intros Hz. induction a as [|c a IH]; [reflexivity|].
  cbn [append HasSuffix]. rewrite IH.
  destruct (a ++ z) eqn:E.
  - destruct a, z; simpl in E; try discriminate; congruence.
  - cbn [String.eqb]. now destruct (Ascii.eqb c "."%char).
Qed.

Lemma TrimSuffix_none (s suffix : string) : HasSuffix s suffix = false -> TrimSuffix s suffix = s.
Proof. unfold TrimSuffix. now intros ->. Qed.

Lemma AbsoluteName_relative (n zone : string) :
  zone <> "" -> n <> "" -> n <> "@" -> HasSuffix n "." = false ->
  AbsoluteName n zone = (n ++ "." ++ zone)%string.
Proof.
  intros Hz Hn Hat Hdot. unfold AbsoluteName.
  destruct (zone =? "") eqn:E1; [apply String.eqb_eq in E1; congruence|].
  destruct (n =? "") eqn:E2; [apply String.eqb_eq in E2; congruence|].
  destruct (n =? "@") eqn:E3; [apply String.eqb_eq in E3; congruence|].
  simpl. now rewrite Hdot.
Qed.

(** X11.  In a zone written without its final dot, a record stored under a
    relative name, under the same name followed by the zone, or under that
    with a final dot, is found by a search for the relative name and its
    own type, when it is the first record of the slice.  (The relative name
    is not empty, not the apex marker, has no final dot and does not
    contain the zone.) *)
Theorem stored_name_forms_are_found (r : arDNSRecord) (rest : list arDNSRecord)
    (n zone : string) :
  zone <> "" -> HasSuffix zone "." = false ->
  n <> "" -> n <> "@" -> HasSuffix n "." = false -> Contains n zone = false ->
  (r.(Name) = n \/ r.(Name) = (n ++ "." ++ zone)%string
   \/ r.(Name) = (n ++ "." ++ zone ++ ".")%string) ->
  findExistingRecord (r :: rest) n r.(Type_) zone = Some (0%nat, r).
Proof.
  intros Hz Hzdot Hn Hat Hndot Hcont Hname.
  assert (Hstored : storedName (Name r) zone = (n ++ "." ++ zone)%string).
  { assert (Hno : HasSuffix (n ++ "." ++ zone) "." = false).
    { rewrite <- append_assoc. now rewrite HasSuffix_dot_app. }
    unfold storedName. destruct Hname as [Hr | [Hr | Hr]]; rewrite Hr.
    - rewrite Hcont.
      destruct (n =? "@") eqn:E; [apply String.eqb_eq in E; congruence|].
      cbn [negb andb]. now apply TrimSuffix_none.
    - assert (Hc : Contains (n ++ "." ++ zone) zone = true)
        by (rewrite <- append_assoc; apply Contains_end).
      rewrite Hc. cbn [negb andb]. now apply TrimSuffix_none.
    - assert (Hc : Contains (n ++ "." ++ zone ++ ".") zone = true)
        by (rewrite <- append_assoc; apply Contains_middle).
      rewrite Hc. cbn [negb andb].
      assert (Hq : (n ++ "." ++ zone ++ ".")%string = ((n ++ "." ++ zone) ++ ".")%string)
        by (now rewrite !append_assoc).
      rewrite Hq. apply TrimSuffix_app. }
  unfold findExistingRecord. simpl. unfold matches.
  rewrite Hstored, (AbsoluteName_relative Hz Hn Hat Hndot), !EqualFold_refl.
  reflexivity.
Qed.

(** X11 at the record "www" of the example zone, stored with the zone and a
    final dot. *)
Lemma stored_name_forms_witness :
  findExistingRecord
    [mkRecord "r1" "A" "www.example.com." Nil 120 false false "" None;
     Scripted.mailRecord]
    "www" "A" "example.com"
  = Some (0%nat, mkRecord "r1" "A" "www.example.com." Nil 120 false false "" None).
Proof.
  apply (@stored_name_forms_are_found
           (mkRecord "r1" "A" "www.example.com." Nil 120 false false "" None)
           [Scripted.mailRecord] "www" "example.com");
    try discriminate; try reflexivity.
  right. right. reflexivity.
Defined.

(** X9 at the example zone. *)
Lemma findExistingRecord_first_match_witness :
  nth_error [Scripted.wwwRecord; Scripted.mailRecord] 1 = Some Scripted.mailRecord
  /\ matches Scripted.mailRecord (AbsoluteName "mail" "example.com") "txt" "example.com"
     = true
  /\ forall j r', (j < 1)%nat ->
       nth_error [Scripted.wwwRecord; Scripted.mailRecord] j = Some r' ->
       matches r' (AbsoluteName "mail" "example.com") "txt" "example.com" = false.
Proof.
  apply (@findExistingRecord_first_match [Scripted.wwwRecord; Scripted.mailRecord]
           "mail" "txt" "example.com" 1 Scripted.mailRecord).
  reflexivity.
Defined.

Lemma findFrom_after_store (searchName rType zone : string) (v : any)
    (l : list arDNSRecord) :
  forall k i existing,
    findFrom k l searchName rType zone = Some (i, existing) ->
    findFrom k (storeAt (i - k) (setValue existing v) l) searchName rType zone
    = Some (i, setValue existing v).
Proof.
  induction l as [|x rest IH]; intros k i existing; simpl; [discriminate|].
  destruct (matches x searchName rType zone) eqn:Ex.
  - intros H. injection H as <- <-. rewrite Nat.sub_diag. simpl.
    change (matches (setValue x v) searchName rType zone)
      with (matches x searchName rType zone).
    now rewrite Ex.
  - intros H. pose proof H as H'. apply findFrom_first in H' as (j & Hi & _).
    replace (i - k)%nat with (S (i - S k)) by lia.
    simpl. rewrite Ex. now apply IH.
Qed.

(** X12.  After an assignment to the value of the record that
    [findExistingRecord] returned, made through the pointer, the same
    search in the slice returns the same index and the record with the
    new value: the locator does not look at values, and the slice is
    shared. *)
Theorem findExistingRecord_after_store (records : list arDNSRecord)
    (name rType zone : string) (i : nat) (existing : arDNSRecord) (v : any) :
  findExistingRecord records name rType zone = Some (i, existing) ->
  findExistingRecord (storeAt i (setValue existing v) records) name rType zone
  = Some (i, setValue existing v).
Proof.
  unfold findExistingRecord. intros H.
  apply findFrom_after_store with (v := v) in H. now rewrite Nat.sub_0_r in H.
Qed.

(** X12 at the A record of the example zone, left with one address. *)
Lemma findExistingRecord_after_store_witness :
  findExistingRecord
    (storeAt 0 (setValue Scripted.wwwRecord (VARecords [mkARecordValue "2.2.2.2" 0 0 ""]))
             [Scripted.wwwRecord; Scripted.mailRecord])
    "www" "A" "example.com"
  = Some (0%nat, setValue Scripted.wwwRecord (VARecords [mkARecordValue "2.2.2.2" 0 0 ""])).
Proof.
  apply (@findExistingRecord_after_store [Scripted.wwwRecord; Scripted.mailRecord]
           "www" "A" "example.com" 0 Scripted.wwwRecord
           (VARecords [mkARecordValue "2.2.2.2" 0 0 ""])).
  reflexivity.
Defined.

(** ** Provider facade, further *)

Section FacadeFurther.
Context {lib : Lib}.
Variable server : Server.


Lemma translateAll_each (zone : string) :
  forall arvanRecords records out,
    translateAll zone arvanRecords records = Ok out ->
    exists translated,
      out = (records ++ translated)%list
      /\ Forall2 (fun ar r => toLibDNSRecord ar zone = Ok r) arvanRecords translated.
Proof.
  induction arvanRecords as [|ar rest IH]; intros records out; simpl.
  - intros H. injection H as <-. exists []. rewrite app_nil_r. split; constructor.
  - destruct (toLibDNSRecord ar zone) as [libRecord|e|p|] eqn:E; try discriminate.
    intros H. apply IH in H as (translated & -> & Hall).
    exists (libRecord :: translated). rewrite <- app_assoc. split; [reflexivity|].
    now constructor.
Qed.

(** X14.  When [GetRecords] returns records, they are, one for one and in
    the same order, what [toLibDNSRecord] makes of the records of the
    listing, every one of which translated without error; and nothing was
    sent beyond the listing. *)
Theorem GetRecords_translates_each (fuel : nat) (zone : string) (tr tr' : trace)
    (out : list libRecord) :
  GetRecords server fuel zone tr = (Ok out, tr') ->
  exists arvanRecords,
    getRecords server fuel zone tr = (Ok arvanRecords, tr')
    /\ Forall2 (fun ar r => toLibDNSRecord ar zone = Ok r) arvanRecords out.
Proof.
  unfold GetRecords, bind.
  destruct (getRecords server fuel zone tr) as [[arvanRecords|e|p|] tr1];
    try discriminate.
  unfold lift. intros H. injection H as H <-.
  apply translateAll_each in H as (translated & -> & Hall).
  now exists arvanRecords.
Qed.

(** X15.  For an input of a type other than A and AAAA that has an
    existing record of its name and type, what is sent is the full delete
    of that record, whatever the data of the input and the value of the
    record; and when the turn ends well, the slice is as before and one
    record more is reported. *)
Theorem deleteOne_other_types (zone : string) (existingRecords : list arDNSRecord)
    (r : libRecord) (deletedRecords : list libRecord) (tr : trace)
    (i : nat) (existing : arDNSRecord) :
  isAddressType (rrOf r).(RR_Type) = false ->
  existingFor zone existingRecords r = Some (i, existing) ->
  snd (deleteOne server zone existingRecords r deletedRecords tr)
  = sent "DELETE" (recordURL zone existing.(ID)) NoBody tr
  /\ forall st tr',
       deleteOne server zone existingRecords r deletedRecords tr = (Ok st, tr') ->
       fst st = existingRecords
       /\ exists libRecord, snd st = (deletedRecords ++ [libRecord])%list.
Proof.
  unfold isAddressType, existingFor. intros Hty Hfind.
  unfold deleteOne. rewrite Hfind, Hty. split.
  - rewrite snd_bind_quiet.
    + apply deleteRecord_trace.
    + intros a tr'. rewrite snd_bind_quiet by reflexivity. apply parsed_quiet.
  - intros st tr'. unfold bind.
    destruct (deleteRecord server zone (ID existing) tr) as [[a|e|p|] tr1];
      try discriminate.
    destruct (parsed r (toLibDNSRecord a zone) tr1) as [[b|e|p|] tr2];
      try discriminate.
    unfold ret. intros H. injection H as <- _. simpl. split; [reflexivity|].
    now exists b.
Qed.

Lemma storeAt_withoutValue (x existing : arDNSRecord) (l : list arDNSRecord) :
  withoutValue x = withoutValue existing ->
  forall j, nth_error l j = Some existing ->
            map withoutValue (storeAt j x l) = map withoutValue l.
Proof.
  intros Hk. induction l as [|r rest IH]; intros [|j]; simpl; try discriminate.
  - intros H. injection H as ->. now rewrite Hk.
  - intros H. now rewrite (IH _ H).
Qed.

(** What a turn of [DeleteRecords] that ends well leaves in the slice. *)
Lemma deleteOne_store (zone : string) (existingRecords : list arDNSRecord)
    (r : libRecord) (deletedRecords : list libRecord) (tr tr' : trace)
    (st : list arDNSRecord * list libRecord) :
  deleteOne server zone existingRecords r deletedRecords tr = (Ok st, tr') ->
  fst st = existingRecords
  \/ exists i existing,
       existingFor zone existingRecords r = Some (i, existing)
       /\ isAddressType (rrOf r).(RR_Type) = true
       /\ hasIP (rrOf r).(RR_Data) (decodeARecordValues existing.(Value)) = true
       /\ without (rrOf r).(RR_Data) (decodeARecordValues existing.(Value)) <> []
       /\ fst st
          = storeAt i
              (setValue existing
                 (VARecords (without (rrOf r).(RR_Data)
                                     (decodeARecordValues existing.(Value)))))
              existingRecords.
Proof.
  unfold deleteOne, existingFor, isAddressType.
  destruct (findExistingRecord existingRecords _ _ zone) as [[i existing]|] eqn:Hfind.
  2:{ unfold ret. intros H. injection H as <- _. now left. }
  destruct ((RR_Type (rrOf r) =? "A") || (RR_Type (rrOf r) =? "AAAA")) eqn:Hty.
  - rewrite removeIP_spec. simpl.
    destruct (hasIP _ _) eqn:Hyes.
    2:{ unfold ret. intros H. injection H as <- _. now left. }
    destruct (List.length _ =? 0)%nat eqn:El.
    + unfold bind. destruct (deleteRecord server zone (ID existing) tr) as [[a|e|p|] tr1];
        try discriminate.
      destruct (parsed r (toLibDNSRecord a zone) tr1) as [[b|e|p|] tr2]; try discriminate.
      unfold ret. intros H. injection H as <- _. now left.
    + unfold bind.
      match goal with
      | |- context [updateRecord ?s ?z ?id ?rec ?t] =>
          destruct (updateRecord s z id rec t) as [[a|e|p|] tr1]; try discriminate
      end.
      destruct (parsed r (toLibDNSRecord a zone) tr1) as [[b|e|p|] tr2]; try discriminate.
      unfold ret. intros H. injection H as <- _. right.
      exists i, existing. repeat split; auto.
      intros Hnil. rewrite Hnil in El. discriminate.
  - unfold bind. destruct (deleteRecord server zone (ID existing) tr) as [[a|e|p|] tr1];
      try discriminate.
    destruct (parsed r (toLibDNSRecord a zone) tr1) as [[b|e|p|] tr2]; try discriminate.
    unfold ret. intros H. injection H as <- _. now left.
Qed.

Lemma deleteOne_keeps_fields (zone : string) (existingRecords : list arDNSRecord)
    (r : libRecord) (deletedRecords : list libRecord) (tr tr' : trace)
    (st : list arDNSRecord * list libRecord) :
  deleteOne server zone existingRecords r deletedRecords tr = (Ok st, tr') ->
  map withoutValue (fst st) = map withoutValue existingRecords.
Proof.
  intros H.
  apply deleteOne_store in H as [->|(i & existing & Hfind & _ & _ & _ & ->)];
    [reflexivity|].
  unfold existingFor, findExistingRecord in Hfind.
  apply findFrom_first in Hfind as (j & Hi & Hj & _). simpl in Hi. subst j.
  apply storeAt_withoutValue with (existing := existing); [reflexivity | exact Hj].
Qed.

(** X16.  A turn of [DeleteRecords] that ends well leaves every record of
    the slice where it was and as it was, its value apart: no record is
    added, dropped or moved, and no identifier, name, type, TTL or flag
    changes. *)
Theorem deleteOne_changes_values_only (zone : string) (existingRecords : list arDNSRecord)
    (r : libRecord) (deletedRecords : list libRecord) (tr tr' : trace)
    (st : list arDNSRecord * list libRecord) :
  deleteOne server zone existingRecords r deletedRecords tr = (Ok st, tr') ->
  map withoutValue (fst st) = map withoutValue existingRecords
  /\ List.length (fst st) = List.length existingRecords.
Proof.
  intros H.
  pose proof (deleteOne_keeps_fields _ _ _ _ _ H) as Hmap.
  split; [exact Hmap|].
  rewrite <- (List.length_map withoutValue (fst st)), Hmap. apply List.length_map.
Qed.

Lemma deleteOne_address_slice (zone : string) (existingRecords : list arDNSRecord)
    (r : libRecord) (deletedRecords : list libRecord) (tr tr' : trace)
    (i : nat) (existing : arDNSRecord)
    (st : list arDNSRecord * list libRecord) :
  isAddressType (rrOf r).(RR_Type) = true ->
  existingFor zone existingRecords r = Some (i, existing) ->
  deleteOne server zone existingRecords r deletedRecords tr = (Ok st, tr') ->
  fst st
  = if hasIP (rrOf r).(RR_Data) (decodeARecordValues existing.(Value))
    then if (List.length (without (rrOf r).(RR_Data)
                                  (decodeARecordValues existing.(Value))) =? 0)%nat
         then existingRecords
         else storeAt i
                (setValue existing
                   (VARecords (without (rrOf r).(RR_Data)
                                       (decodeARecordValues existing.(Value)))))
                existingRecords
    else existingRecords.
Proof.
  unfold deleteOne, existingFor, isAddressType. intros Hty Hfind.
  rewrite Hfind, Hty, removeIP_spec. simpl.
  destruct (hasIP _ _) eqn:Hyes.
  2:{ unfold ret. intros H. injection H as <- _. reflexivity. }
  destruct (List.length _ =? 0)%nat eqn:El.
  - unfold bind. destruct (deleteRecord server zone (ID existing) tr) as [[a|e|p|] tr1];
      try discriminate.
    destruct (parsed r (toLibDNSRecord a zone) tr1) as [[b|e|p|] tr2]; try discriminate.
    unfold ret. intros H. injection H as <- _. reflexivity.
  - unfold bind.
    match goal with
    | |- context [updateRecord ?s ?z ?id ?rec ?t] =>
        destruct (updateRecord s z id rec t) as [[a|e|p|] tr1]; try discriminate
    end.
    destruct (parsed r (toLibDNSRecord a zone) tr1) as [[b|e|p|] tr2]; try discriminate.
    unfold ret. intros H. injection H as <- _. reflexivity.
Qed.

Lemma hasIP_without (data : string) (currentVals : list ARecordValue) :
  hasIP data (without data currentVals) = false.
Proof.
  induction currentVals as [|v rest IH]; simpl; [reflexivity|].
  destruct (IP v =? data) eqn:E; simpl; [exact IH|].
  rewrite E. exact IH.
Qed.

(** X17.  The same A or AAAA input taken a second time in one call.  When
    the first turn ended well and left entries in the record (it updated
    the record, or passed the input over), the second turn is passed over:
    it reads the entries the first one stored, and the address is not
    among them.  When the first turn deleted the record, the slice still
    holds it, and the second turn sends the full delete of it again. *)
Theorem deleteOne_same_address_again (zone : string) (existingRecords : list arDNSRecord)
    (r : libRecord) (deletedRecords deletedRecords' : list libRecord)
    (tr tr1 tr2 : trace) (i : nat) (existing : arDNSRecord)
    (st : list arDNSRecord * list libRecord) :
  isAddressType (rrOf r).(RR_Type) = true ->
  existingFor zone existingRecords r = Some (i, existing) ->
  deleteOne server zone existingRecords r deletedRecords tr = (Ok st, tr1) ->
  (without (rrOf r).(RR_Data) (decodeARecordValues existing.(Value)) <> [] ->
     deleteOne server zone (fst st) r deletedRecords' tr2
     = (Ok (fst st, deletedRecords'), tr2))
  /\ (hasIP (rrOf r).(RR_Data) (decodeARecordValues existing.(Value)) = true ->
      without (rrOf r).(RR_Data) (decodeARecordValues existing.(Value)) = [] ->
      snd (deleteOne server zone (fst st) r deletedRecords' tr2)
      = sent "DELETE" (recordURL zone existing.(ID)) NoBody tr2).
Proof.
  intros Hty Hfind H.
  pose proof (deleteOne_address_slice _ _ _ _ _ Hty Hfind H) as Hstore. split.
  - intros Hsome.
    destruct (hasIP (RR_Data (rrOf r)) (decodeARecordValues (Value existing))) eqn:Hyes.
    + destruct (List.length _ =? 0)%nat eqn:El in Hstore.
      { apply without_length in El. contradiction. }
      rewrite Hstore.
      apply deleteOne_no_match
        with (i := i)
             (existing := setValue existing
                            (VARecords (without (RR_Data (rrOf r))
                                          (decodeARecordValues (Value existing))))).
      * exact Hty.
      * unfold existingFor, findExistingRecord in *.
        apply findFrom_after_store
          with (v := VARecords (without (RR_Data (rrOf r))
                                  (decodeARecordValues (Value existing)))) in Hfind.
        now rewrite Nat.sub_0_r in Hfind.
      * simpl. apply hasIP_without.
    + rewrite Hstore.
      now apply deleteOne_no_match with (i := i) (existing := existing).
  - intros Hyes Hnil. rewrite Hyes, Hnil in Hstore. simpl in Hstore. rewrite Hstore.
    unfold isAddressType, existingFor in *. unfold deleteOne.
    rewrite Hfind, Hty, removeIP_spec. simpl. rewrite Hyes, Hnil. simpl.
    rewrite snd_bind_quiet.
    + apply deleteRecord_trace.
    + intros a tr'. rewrite snd_bind_quiet by reflexivity. apply parsed_quiet.
Qed.

Lemma overwriteLoop_sends (zone : string) (existingRecords : list arDNSRecord) :
  forall records tr o tr',
    overwriteLoop server zone existingRecords records tr = (o, tr') ->
    exists k,
      (k <= List.length (overwriteTargets zone existingRecords records))%nat
      /\ tr' = (tr ++ map (deleteRequest zone)
                          (firstn k (overwriteTargets zone existingRecords records)))%list
      /\ (o = Ok tt -> k = List.length (overwriteTargets zone existingRecords records)).
Proof.
  induction records as [|r rest IH]; intros tr o tr'.
  - simpl. unfold ret. intros H. injection H as <- <-. exists 0%nat.
    simpl. rewrite app_nil_r. auto.
  - change (overwriteTargets zone existingRecords (r :: rest))
      with ((match existingFor zone existingRecords r with
             | Some (_, existing) => [existing.(ID)]
             | None => []
             end) ++ overwriteTargets zone existingRecords rest)%list.
    cbn [overwriteLoop]. unfold bind at 1, overwriteOne, existingFor.
    destruct (findExistingRecord existingRecords _ _ zone) as [[i existing]|].
    + unfold bind at 1.
      pose proof (deleteRecord_trace server zone (ID existing) tr) as Htr.
      unfold sent in Htr.
      destruct (deleteRecord server zone (ID existing) tr) as [[a|e|p|] tr1] eqn:E;
        simpl in Htr.
      * apply deleteRecord_ok in E. unfold ret. intros H.
        apply IH in H as (k & Hk & -> & Hok). exists (S k). subst tr1.
        cbn [app firstn map List.length]. rewrite <- app_assoc.
        split; [lia|]. split; [reflexivity|]. intros Ho. now rewrite (Hok Ho).
      * intros H. injection H as <- <-.
        destruct (newRequestError "DELETE" _).
        -- exists 0%nat. subst tr1. simpl. rewrite app_nil_r.
           repeat split; auto; try lia; discriminate.
        -- exists 1%nat. subst tr1. simpl.
           repeat split; auto; try lia; discriminate.
      * intros H. injection H as <- <-.
        destruct (newRequestError "DELETE" _).
        -- exists 0%nat. subst tr1. simpl. rewrite app_nil_r.
           repeat split; auto; try lia; discriminate.
        -- exists 1%nat. subst tr1. simpl.
           repeat split; auto; try lia; discriminate.
      * intros H. injection H as <- <-.
        destruct (newRequestError "DELETE" _).
        -- exists 0%nat. subst tr1. simpl. rewrite app_nil_r.
           repeat split; auto; try lia; discriminate.
        -- exists 1%nat. subst tr1. simpl.
           repeat split; auto; try lia; discriminate.
    + unfold ret. simpl. apply IH.
Qed.

(** X18.  After the listing, what [SetRecords] sends is full deletes and
    then creations and nothing else (it never updates a record): the
    deletes are a first part of those of the inputs that have an existing
    record, one for each such input in the order of the inputs, so that a
    record matched by two inputs is deleted twice; the creations are one
    for each input of a first part of the inputs, every one the same POST
    with the empty JSON object for body; and no creation is sent unless
    every one of the deletes was sent. *)
Theorem SetRecords_sends_deletes_then_creations (fuel : nat) (zone : string)
    (records : list libRecord) (existingRecords : list arDNSRecord) (tr tr1 : trace) :
  getRecords server fuel zone tr = (Ok existingRecords, tr1) ->
  exists k n,
    (k <= List.length (overwriteTargets zone existingRecords records))%nat
    /\ (n <= List.length records)%nat
    /\ (k < List.length (overwriteTargets zone existingRecords records) -> n = 0)%nat
    /\ snd (SetRecords server fuel zone records tr)
       = (tr1
          ++ map (deleteRequest zone)
                 (firstn k (overwriteTargets zone existingRecords records))
          ++ repeat (createRequest zone) n)%list.
Proof.
  intros Hget. unfold SetRecords. unfold bind at 1. rewrite Hget.
  unfold bind at 1.
  destruct (overwriteLoop server zone existingRecords records tr1) as [o tr2] eqn:E.
  apply overwriteLoop_sends in E as (k & Hk & -> & Hok).
  destruct o as [[]|e|p|].
  - unfold AppendRecords.
    destruct (appendLoop server zone records [] _) as [o' tr3] eqn:Ea.
    apply appendLoop_sends in Ea as (n & Hn & -> & _ & _).
    pose proof (Hok eq_refl) as Hall.
    exists k, n. cbn [snd]. rewrite <- app_assoc.
    split; [exact Hk|]. split; [exact Hn|]. split; [lia|reflexivity].
  - exists k, 0%nat. simpl. rewrite app_nil_r. repeat split; auto; lia.
  - exists k, 0%nat. simpl. rewrite app_nil_r. repeat split; auto; lia.
  - exists k, 0%nat. simpl. rewrite app_nil_r. repeat split; auto; lia.
Qed.

Lemma do_error_status {A : Type} (unmarshal : string -> string + A)
    (req : request) (result : A) (tr : trace) (resp : httpResponse) :
  server (tr ++ [req])%list = inr resp ->
  (400 <= resp.(StatusCode))%Z ->
  exists e, do server unmarshal req result tr = (Err e, (tr ++ [req])%list).
Proof.
  intros Hresp Hstatus. unfold do. rewrite Hresp.
  destruct (decodeEnvelope (Body resp)) as [[msg|respData] unread].
  - eexists; reflexivity.
  - apply Z.leb_le in Hstatus. rewrite Hstatus. eexists; reflexivity.
Qed.

(** X19.  When the answer to the request for the first page has a status
    of 400 or more, [GetRecords], [SetRecords] and [DeleteRecords] all end
    with the error of that request, whatever their inputs, and that
    request is all they have sent: no record is deleted, updated or
    created after a listing that failed. *)
Theorem failed_listing_stops_the_call (fuel : nat) (zone : string)
    (records : list libRecord) (tr : trace) (resp : httpResponse) :
  newRequestError "GET" (apiBaseURL ++ pagePath zone 1) = None ->
  server (tr ++ [pageRequest zone 1])%list = inr resp ->
  (400 <= resp.(StatusCode))%Z ->
  exists e,
    GetRecords server (S fuel) zone tr = (Err e, (tr ++ [pageRequest zone 1])%list)
    /\ SetRecords server (S fuel) zone records tr
       = (Err e, (tr ++ [pageRequest zone 1])%list)
    /\ DeleteRecords server (S fuel) zone records tr
       = (Err e, (tr ++ [pageRequest zone 1])%list).
Proof.
  intros Hreq Hresp Hstatus.
  destruct (do_error_status unmarshalPage (pageRequest zone 1) zeroPage tr Hresp Hstatus)
    as (e & He).
  assert (Hget : getRecords server (S fuel) zone tr
                 = (Err e, (tr ++ [pageRequest zone 1])%list)).
  { unfold getRecords. cbn [getRecordsFrom]. unfold bind at 1, newRequest.
    unfold pagePath in Hreq. rewrite Hreq. unfold ret. cbn [marshalPayload].
    unfold bind at 1.
    unfold pageRequest, pagePath in He. now rewrite He. }
  exists e. unfold GetRecords, SetRecords, DeleteRecords.
  repeat split; unfold bind at 1; now rewrite Hget.
Qed.

Lemma ids_withoutValue (l : list arDNSRecord) :
  map ID (map withoutValue l) = map ID l.
Proof. rewrite map_map. now apply map_ext. Qed.

Lemma deleteOne_touches (zone : string) (existingRecords : list arDNSRecord)
    (r : libRecord) (deletedRecords : list libRecord) (tr : trace) :
  snd (deleteOne server zone existingRecords r deletedRecords tr) = tr
  \/ exists req,
       snd (deleteOne server zone existingRecords r deletedRecords tr) = (tr ++ [req])%list
       /\ touches zone (map ID existingRecords) req.
Proof.
  unfold deleteOne.
  destruct (findExistingRecord existingRecords _ _ zone) as [[i existing]|] eqn:Hfind;
    [|now left].
  assert (Hin : In (ID existing) (map ID existingRecords)).
  { unfold findExistingRecord in Hfind.
    apply findFrom_first in Hfind as (j & _ & Hj & _).
    apply in_map. eapply nth_error_In. exact Hj. }
  assert (Hdel : forall k : arDNSRecord -> M (list arDNSRecord * list libRecord),
             (forall a tr', snd (k a tr') = tr') ->
             snd (bind (deleteRecord server zone (ID existing)) k tr) = tr
             \/ exists req,
                  snd (bind (deleteRecord server zone (ID existing)) k tr)
                  = (tr ++ [req])%list
                  /\ touches zone (map ID existingRecords) req).
  { intros k Hk. rewrite snd_bind_quiet by exact Hk. rewrite deleteRecord_trace.
    unfold sent. destruct (newRequestError "DELETE" _); [now left|]. right.
    eexists. split; [reflexivity|]. exists (ID existing). simpl. auto. }
  assert (Hquiet : forall (l : list arDNSRecord) (a : arDNSRecord) (tr' : trace),
             snd (bind (parsed r (toLibDNSRecord a zone))
                       (fun libRecord => ret (l, (deletedRecords ++ [libRecord])%list)) tr')
             = tr').
  { intros l a tr'. rewrite snd_bind_quiet by reflexivity. apply parsed_quiet. }
  destruct ((RR_Type (rrOf r) =? "A") || (RR_Type (rrOf r) =? "AAAA")).
  - rewrite removeIP_spec. simpl.
    destruct (hasIP _ _); [|now left].
    destruct (List.length _ =? 0)%nat.
    + apply Hdel. apply Hquiet.
    + rewrite snd_bind_quiet by apply Hquiet. rewrite updateRecord_trace.
      unfold sent. destruct (newRequestError "PUT" _); [now left|]. right.
      eexists. split; [reflexivity|]. exists (ID existing). simpl. auto.
  - apply Hdel. apply Hquiet.
Qed.

Lemma deleteLoop_touches (zone : string) :
  forall records existingRecords deletedRecords tr,
    exists reqs,
      snd (deleteLoop server zone existingRecords records deletedRecords tr)
      = (tr ++ reqs)%list
      /\ Forall (touches zone (map ID existingRecords)) reqs
      /\ (List.length reqs <= List.length records)%nat.
Proof.
  induction records as [|r rest IH]; intros existingRecords deletedRecords tr.
  - exists []. simpl. rewrite app_nil_r. repeat split; auto.
  - cbn [deleteLoop]. unfold bind.
    pose proof (deleteOne_touches zone existingRecords r deletedRecords tr) as Hone.
    destruct (deleteOne server zone existingRecords r deletedRecords tr)
      as [[st|e|p|] tr1] eqn:E; simpl in Hone.
    + destruct (IH (fst st) (snd st) tr1) as (reqs & Htr & Hall & Hlen).
      rewrite <- ids_withoutValue, (deleteOne_keeps_fields _ _ _ _ _ E),
        ids_withoutValue in Hall.
      destruct Hone as [->|(req & -> & Hreq)].
      * exists reqs. repeat split; auto. simpl. lia.
      * exists (req :: reqs). rewrite Htr, <- app_assoc. simpl.
        repeat split; auto. lia.
    + destruct Hone as [->|(req & -> & Hreq)].
      * exists []. simpl. rewrite app_nil_r. repeat split; auto. lia.
      * exists [req]. simpl. repeat split; auto. lia.
    + destruct Hone as [->|(req & -> & Hreq)].
      * exists []. simpl. rewrite app_nil_r. repeat split; auto. lia.
      * exists [req]. simpl. repeat split; auto. lia.
    + destruct Hone as [->|(req & -> & Hreq)].
      * exists []. simpl. rewrite app_nil_r. repeat split; auto. lia.
      * exists [req]. simpl. repeat split; auto. lia.
Qed.

(** X20.  After the listing, every request [DeleteRecords] sends is the
    full delete or an update of a record of the listing, addressed by the
    identifier the listing gave, and there is at most one for each input:
    it creates nothing, and it reaches no record the listing did not
    hold. *)
Theorem DeleteRecords_touches_listed_only (fuel : nat) (zone : string)
    (records : list libRecord) (existingRecords : list arDNSRecord) (tr tr1 : trace) :
  getRecords server fuel zone tr = (Ok existingRecords, tr1) ->
  exists reqs,
    snd (DeleteRecords server fuel zone records tr) = (tr1 ++ reqs)%list
    /\ Forall (touches zone (map ID existingRecords)) reqs
    /\ (List.length reqs <= List.length records)%nat.
Proof.
  intros Hget. unfold DeleteRecords. unfold bind at 1. rewrite Hget.
  apply deleteLoop_touches.
Qed.

End FacadeFurther.

(** ** The entries of an address record, through JSON *)





(** ** The further properties of the facade, on the scripted peers *)

(** X14's theorem on a zone that lists one PTR record. *)
Lemma GetRecords_translates_each_witness :
  exists arvanRecords,
    @getRecords ScriptedPages.echoLib ScriptedPages.echoServer 2 "example.com" []
    = (Ok arvanRecords, [Scripted.listRequest])
    /\ Forall2 (fun ar r => @toLibDNSRecord ScriptedPages.echoLib ar "example.com" = Ok r)
         arvanRecords [Generic (mkRR "4" 60000000000 "PTR" "{}")].
Proof.
  apply (@GetRecords_translates_each ScriptedPages.echoLib ScriptedPages.echoServer
           2 "example.com" [] [Scripted.listRequest]
           [Generic (mkRR "4" 60000000000 "PTR" "{}")]).
  reflexivity.
Defined.

(** X15's theorem for a TXT input whose text is not that of the record. *)
Lemma deleteOne_other_types_witness :
  snd (@deleteOne Scripted.zoneLib Scripted.zoneServer "example.com"
         [Scripted.wwwRecord; Scripted.mailRecord] (TXT "mail" 0 "another text") [] [])
  = [deleteRequest "example.com" "r2"].
Proof.
  exact (proj1 (@deleteOne_other_types Scripted.zoneLib Scripted.zoneServer "example.com"
                  [Scripted.wwwRecord; Scripted.mailRecord] (TXT "mail" 0 "another text")
                  [] [] 1%nat Scripted.mailRecord eq_refl eq_refl)).
Defined.

(** X16's theorem for a turn that updates the record. *)
Lemma deleteOne_changes_values_only_witness :
  map withoutValue
      [setValue Scripted.wwwRecord (VARecords [mkARecordValue "2.2.2.2" 0 0 ""])]
  = map withoutValue [Scripted.wwwRecord]
  /\ List.length [setValue Scripted.wwwRecord (VARecords [mkARecordValue "2.2.2.2" 0 0 ""])]
     = List.length [Scripted.wwwRecord].
Proof.
  apply (@deleteOne_changes_values_only ScriptedPages.echoLib ScriptedPages.echoServer
           "example.com" [Scripted.wwwRecord]
           (Address "www" 120000000000 Scripted.oneOneOneOne) [] []
           [mkRequest "PUT" (apiBaseURL ++ "/domains/example.com/dns-records/r1")
              (RecordJSON
                 (setValue Scripted.wwwRecord (VARecords [mkARecordValue "2.2.2.2" 0 0 ""])))]
           ([setValue Scripted.wwwRecord (VARecords [mkARecordValue "2.2.2.2" 0 0 ""])],
            [Generic (mkRR "4" 60000000000 "PTR" "{}")])).
  reflexivity.
Defined.

(** X17's theorem: after the update that took 1.1.1.1 out of the record,
    the same input is passed over. *)
Lemma deleteOne_same_address_again_witness :
  @deleteOne ScriptedPages.echoLib ScriptedPages.echoServer "example.com"
     [setValue Scripted.wwwRecord (VARecords [mkARecordValue "2.2.2.2" 0 0 ""])]
     (Address "www" 120000000000 Scripted.oneOneOneOne) [] []
  = (Ok ([setValue Scripted.wwwRecord (VARecords [mkARecordValue "2.2.2.2" 0 0 ""])], []),
     []).
Proof.
  apply (proj1 (@deleteOne_same_address_again ScriptedPages.echoLib ScriptedPages.echoServer
                  "example.com" [Scripted.wwwRecord]
                  (Address "www" 120000000000 Scripted.oneOneOneOne) [] [] []
                  [mkRequest "PUT" (apiBaseURL ++ "/domains/example.com/dns-records/r1")
                     (RecordJSON
                        (setValue Scripted.wwwRecord
                                  (VARecords [mkARecordValue "2.2.2.2" 0 0 ""])))]
                  [] 0%nat Scripted.wwwRecord
                  ([setValue Scripted.wwwRecord (VARecords [mkARecordValue "2.2.2.2" 0 0 ""])],
                   [Generic (mkRR "4" 60000000000 "PTR" "{}")])
                  eq_refl eq_refl eq_refl)).
  discriminate.
Defined.

(** X18's theorem on the zone of two records, for one TXT input. *)
Lemma SetRecords_sends_witness :
  exists k n,
    (k <= List.length (@overwriteTargets Scripted.zoneLib "example.com"
                         [Scripted.wwwRecord; Scripted.mailRecord]
                         [TXT "mail" 120000000000 "hello"]))%nat
    /\ (n <= List.length [TXT "mail" 120000000000 "hello"])%nat
    /\ (k < List.length (@overwriteTargets Scripted.zoneLib "example.com"
                           [Scripted.wwwRecord; Scripted.mailRecord]
                           [TXT "mail" 120000000000 "hello"]) -> n = 0)%nat
    /\ snd (@SetRecords Scripted.zoneLib Scripted.zoneServer 3 "example.com"
              [TXT "mail" 120000000000 "hello"] [])
       = ([Scripted.listRequest]
          ++ map (deleteRequest "example.com")
                 (firstn k (@overwriteTargets Scripted.zoneLib "example.com"
                              [Scripted.wwwRecord; Scripted.mailRecord]
                              [TXT "mail" 120000000000 "hello"]))
          ++ repeat (createRequest "example.com") n)%list.
Proof.
  apply (@SetRecords_sends_deletes_then_creations Scripted.zoneLib Scripted.zoneServer
           3 "example.com" [TXT "mail" 120000000000 "hello"]
           [Scripted.wwwRecord; Scripted.mailRecord] [] [Scripted.listRequest]).
  reflexivity.
Defined.

(** X19's theorem behind a failing gateway. *)
Lemma failed_listing_witness :
  exists e,
    @GetRecords Scripted.zoneLib Scripted.gatewayServer 2 "example.com" []
    = (Err e, [Scripted.listRequest])
    /\ @SetRecords Scripted.zoneLib Scripted.gatewayServer 2 "example.com"
         [TXT "mail" 120000000000 "hello"] []
       = (Err e, [Scripted.listRequest])
    /\ @DeleteRecords Scripted.zoneLib Scripted.gatewayServer 2 "example.com"
         [TXT "mail" 120000000000 "hello"] []
       = (Err e, [Scripted.listRequest]).
Proof.
  apply (@failed_listing_stops_the_call Scripted.zoneLib Scripted.gatewayServer
           1 "example.com" [TXT "mail" 120000000000 "hello"] []
           (mkHTTP 502 Scripted.gatewayPage)).
  - reflexivity.
  - reflexivity.
  - vm_compute. discriminate.
Defined.

(** X20's theorem on the zone of two records, for one address input. *)
Lemma DeleteRecords_touches_witness :
  exists reqs,
    snd (@DeleteRecords Scripted.zoneLib Scripted.zoneServer 3 "example.com"
           [Address "www" 120000000000 Scripted.oneOneOneOne] [])
    = ([Scripted.listRequest] ++ reqs)%list
    /\ Forall (touches "example.com" ["r1"; "r2"]) reqs
    /\ (List.length reqs <= 1)%nat.
Proof.
  apply (@DeleteRecords_touches_listed_only Scripted.zoneLib Scripted.zoneServer
           3 "example.com" [Address "www" 120000000000 Scripted.oneOneOneOne]
           [Scripted.wwwRecord; Scripted.mailRecord] [] [Scripted.listRequest]).
  reflexivity.
Defined.

